(** * ZOCP: the capability tree and the message dispatcher of [zocp.py]

    A shallow embedding of [src/src/zocp.py].  Python values are an
    inductive type, a [dict] is an association list in insertion order,
    the node object is a record, and every method is a function in a
    small exception-and-output monad over that record.

    Conventions:
    - a dict that the source updates in place is a value here, and a
      function that updates its argument returns the argument as it is
      afterwards; [a[key] = b[key]] stores the value of [b[key]], which
      as a value is not told apart from the shared object;
    - the one reference the node keeps into its own tree, [self._cur_obj],
      is modelled as a reference: the access path of the object it is bound
      to while that object is part of the capability tree, and the object
      itself once an assignment has put another value in its place;
    - the transport ([Pyre]) and [json] are outside the source: a received
      frame carries what [json.loads] makes of it, and a message handed to
      [whisper] or [shout] is recorded as the object given to [json.dumps];
    - the callbacks are those of [ZOCP] itself, which print their
      arguments: a call of one is recorded as an effect. *)

From Stdlib Require Import ZArith String Ascii List Bool Lia.
From Stdlib Require Import Floats.SpecFloat.
From stdpp Require Import base option list gmap.
Import ListNotations.

Local Open Scope string_scope.
Local Open Scope Z_scope.

(** ** Python values *)

(** Dictionary keys.  JSON object keys are strings; [set_object] stores
    the key [None] when called without a name; a JSON array given where
    an object is expected makes numbers reach key position.  Python
    identifies the keys [True], [1] and [1.0]: a number whose value is an
    integer is the key [KInt], any other float is [KFloat]. *)
Inductive key : Type :=
| KNone
| KStr (s : string)
| KInt (z : Z)
| KFloat (f : spec_float).

Unset Elimination Schemes.
Inductive pyval : Type :=
| VNone
| VBool (b : bool)
| VInt (z : Z)
| VFloat (f : spec_float)
| VStr (s : string)
| VList (l : list pyval)
| VDict (d : list (key * pyval)).
Set Elimination Schemes.

Abbreviation dict := (list (key * pyval)).

Section pyval_induction.
Variable P : pyval -> Prop.
Hypothesis HNone : P VNone.
Hypothesis HBool : forall b, P (VBool b).
Hypothesis HInt : forall z, P (VInt z).
Hypothesis HFloat : forall f, P (VFloat f).
Hypothesis HStr : forall s, P (VStr s).
Hypothesis HList : forall l, Forall P l -> P (VList l).
Hypothesis HDict : forall d, Forall (fun kv => P (snd kv)) d -> P (VDict d).

Fixpoint pyval_ind (v : pyval) : P v :=
  match v with
  | VNone => HNone
  | VBool b => HBool b
  | VInt z => HInt z
  | VFloat f => HFloat f
  | VStr s => HStr s
  | VList l =>
      HList l ((fix go (xs : list pyval) : Forall P xs :=
                  match xs with
                  | [] => @Stdlib.Lists.List.Forall_nil _ P
                  | x :: xs' => @Stdlib.Lists.List.Forall_cons _ P x xs' (pyval_ind x) (go xs')
                  end) l)
  | VDict d =>
      HDict d ((fix go (xs : dict) : Forall (fun kv => P (snd kv)) xs :=
                  match xs with
                  | [] => @Stdlib.Lists.List.Forall_nil _ _
                  | kv :: xs' => @Stdlib.Lists.List.Forall_cons _ _ kv xs' (pyval_ind (snd kv)) (go xs')
                  end) d)
  end.
End pyval_induction.

Definition spec_float_eqb (f g : spec_float) : bool :=
  match f, g with
  | S754_zero s, S754_zero t => Bool.eqb s t
  | S754_infinity s, S754_infinity t => Bool.eqb s t
  | S754_nan, S754_nan => true
  | S754_finite s m e, S754_finite t n e' =>
      Bool.eqb s t && Pos.eqb m n && Z.eqb e e'
  | _, _ => false
  end.

Definition key_eqb (j k : key) : bool :=
  match j, k with
  | KNone, KNone => true
  | KStr s, KStr t => String.eqb s t
  | KInt x, KInt y => Z.eqb x y
  | KFloat f, KFloat g => spec_float_eqb f g
  | _, _ => false
  end.

(** The integer a float is equal to, if any ([1.0 == 1], [-0.0 == 0]). *)
Definition float_integer (f : spec_float) : option Z :=
  match f with
  | S754_zero _ => Some 0
  | S754_finite s m e =>
      let sign (z : Z) := if s then - z else z in
      if 0 <=? e then Some (sign (Z.pos m * 2 ^ e))
      else if Z.pos m mod 2 ^ (- e) =? 0 then Some (sign (Z.pos m / 2 ^ (- e)))
      else None
  | _ => None
  end.

(** [hash(v)] followed by key comparison: the key a value stands for when it
    indexes a dict, [None] when the value is unhashable ([TypeError]). *)
Definition as_key (v : pyval) : option key :=
  match v with
  | VNone => Some KNone
  | VBool b => Some (KInt (if b then 1 else 0))
  | VInt z => Some (KInt z)
  | VFloat f => Some (match float_integer f with
                      | Some z => KInt z
                      | None => KFloat f
                      end)
  | VStr s => Some (KStr s)
  | VList _ | VDict _ => None
  end.

(** Truth value of an object, as tested by [if x:] and [not x]. *)
Definition truthy (v : pyval) : bool :=
  match v with
  | VNone => false
  | VBool b => b
  | VInt z => negb (z =? 0)
  | VFloat (S754_zero _) => false
  | VFloat _ => true
  | VStr s => negb (String.eqb s "")
  | VList l => match l with [] => false | _ => true end
  | VDict d => match d with [] => false | _ => true end
  end.

Definition is_dict (v : pyval) : bool :=
  match v with VDict _ => true | _ => false end.

(** ** Exceptions and outcomes *)

Inductive exn : Type :=
| KeyError
| TypeError
| IndexError
| AttributeError
| ValueError
| Exception (method : key).   (* Exception('No %s method on resource: %s' % (method, object)) *)

Inductive outcome (A : Type) : Type :=
| Ret (x : A)
| Raise (e : exn).
Arguments Ret {A} x.
Arguments Raise {A} e.

(** ** Operations on [dict] objects *)

(** [d.get(k)] as an option; [k in d] is [is_Some]. *)
Fixpoint dict_lookup (k : key) (d : dict) : option pyval :=
  match d with
  | [] => None
  | (j, v) :: d' => if key_eqb j k then Some v else dict_lookup k d'
  end.

Definition dict_mem (k : key) (d : dict) : bool :=
  match dict_lookup k d with Some _ => true | None => false end.

(** [d[k] = v]: an existing key keeps its position, a new key goes last. *)
Fixpoint dict_store (k : key) (v : pyval) (d : dict) : dict :=
  match d with
  | [] => [(k, v)]
  | (j, w) :: d' => if key_eqb j k then (j, v) :: d' else (j, w) :: dict_store k v d'
  end.

(** Sequence indexing [l[i]] with Python's negative indices. *)
Definition seq_index {A} (l : list A) (i : Z) : option A :=
  let n := Z.of_nat (length l) in
  if (0 <=? i) && (i <? n) then l !! Z.to_nat i
  else if (- n <=? i) && (i <? 0) then l !! Z.to_nat (n + i)
  else None.

(** [d[k]] for an arbitrary object [d]. *)
Definition py_getitem (d : pyval) (k : key) : outcome pyval :=
  match d with
  | VDict items =>
      match dict_lookup k items with Some v => Ret v | None => Raise KeyError end
  | VList l =>
      match k with
      | KInt i => match seq_index l i with Some v => Ret v | None => Raise IndexError end
      | _ => Raise TypeError
      end
  | VStr s =>
      match k with
      | KInt i =>
          match seq_index (list_ascii_of_string s) i with
          | Some c => Ret (VStr (String c EmptyString))
          | None => Raise IndexError
          end
      | _ => Raise TypeError
      end
  | _ => Raise TypeError
  end.

(** [d[k] = v] for an arbitrary object [d]; the result is [d] afterwards. *)
Definition py_setitem (d : pyval) (k : key) (v : pyval) : outcome pyval :=
  match d with
  | VDict items => Ret (VDict (dict_store k v items))
  | VList l =>
      match k with
      | KInt i =>
          let n := Z.of_nat (length l) in
          if (0 <=? i) && (i <? n) then Ret (VList (<[Z.to_nat i := v]> l))
          else if (- n <=? i) && (i <? 0) then Ret (VList (<[Z.to_nat (n + i) := v]> l))
          else Raise IndexError
      | _ => Raise TypeError
      end
  | _ => Raise TypeError
  end.

(** ** Module-level helpers of [zocp.py] *)

(** [dict_get(d, keys)]: [for key in keys: d = d[key]]. *)
Fixpoint dict_get (d : pyval) (keys : list key) : outcome pyval :=
  match keys with
  | [] => Ret d
  | key :: keys' =>
      match py_getitem d key with
      | Ret d' => dict_get d' keys'
      | Raise e => Raise e
      end
  end.

(** [dict_set(d, keys, value)]: walks [keys[:-1]], then stores under
    [keys[-1]].  The source updates the reached object in place; here the
    result is the root [d] as it is afterwards. *)
Fixpoint dict_set (d : pyval) (keys : list key) (value : pyval) : outcome pyval :=
  match keys with
  | [] => Raise IndexError
  | [key] => py_setitem d key value
  | key :: keys' =>
      match py_getitem d key with
      | Ret sub =>
          match dict_set sub keys' value with
          | Ret sub' => py_setitem d key sub'
          | Raise e => Raise e
          end
      | Raise e => Raise e
      end
  end.

(** [dict_merge(a, b)] when [b] is a dict: the loop [for key in b] with the
    recursive call on [a[key]], which the source updates in place.  A dict
    holds a key once, so the value listed with [key] is [b[key]]. *)
Fixpoint dict_merge_rec (a b : pyval) {struct b} : pyval :=
  match a with
  | VDict da =>
      match b with
      | VDict db =>
          VDict ((fix each (items : dict) (a : dict) {struct items} : dict :=
                    match items with
                    | [] => a
                    | (key, bkey) :: rest =>
                        each rest
                          (match dict_lookup key a with
                           | Some akey =>
                               if is_dict akey && is_dict bkey
                               then dict_store key (dict_merge_rec akey bkey) a
                               else dict_store key bkey a
                           | None => dict_store key bkey a
                           end)
                    end) db da)
      | _ => a
      end
  | _ => b
  end.

(** The same loop when [b] is a list: [key] runs over the elements, [key in
    a] hashes it, and [b[key]] indexes the list with it.  The first component
    is the dict [a] as the loop leaves it, also when it raises. *)
Fixpoint dict_merge_seq (b : list pyval) (todo : list pyval) (a : dict)
  : dict * outcome unit :=
  match todo with
  | [] => (a, Ret tt)
  | key :: rest =>
      match as_key key with
      | None => (a, Raise TypeError)
      | Some k =>
          let bkey :=
            match key with
            | VInt i => match seq_index b i with Some v => Ret v | None => Raise IndexError end
            | VBool t => match seq_index b (if t then 1 else 0) with
                         | Some v => Ret v | None => Raise IndexError end
            | _ => Raise TypeError
            end in
          match bkey with
          | Raise e => (a, Raise e)
          | Ret bkey =>
              dict_merge_seq b rest
                (match dict_lookup k a with
                 | Some akey =>
                     if is_dict akey && is_dict bkey
                     then dict_store k (dict_merge_rec akey bkey) a
                     else dict_store k bkey a
                 | None => dict_store k bkey a
                 end)
          end
      end
  end.

(** [dict_merge(a, b)].  The first component is the object [a] after the
    call (the source merges into it in place), the second what the call
    returns or raises. *)
Definition dict_merge (a b : pyval) : pyval * outcome pyval :=
  match a with
  | VDict da =>
      match b with
      | VDict _ => let a' := dict_merge_rec a b in (a', Ret a')
      | VList l =>
          match dict_merge_seq l l da with
          | (da', Ret _) => (VDict da', Ret (VDict da'))
          | (da', Raise e) => (VDict da', Raise e)
          end
      | VStr s =>
          (* every character is a string, and [b[key]] needs an integer *)
          if String.eqb s "" then (a, Ret a) else (a, Raise TypeError)
      | _ => (a, Raise TypeError)   (* [for key in b]: not iterable *)
      end
  | _ => (a, Ret b)
  end.

(** The objects a merge replaces.  [dict_merge(a, b)] keeps the dict [a]
    and every dict inside [a] that it merges a dict of [b] into; any other
    value that [a] holds under a key of [b] is replaced by the assignment
    [a[key] = b[key]].  [merge_replaces a b p] tells whether the object found
    at the path [p] in [a] before the call is replaced by it, the object
    itself or a dict above it. *)
Fixpoint merge_replaces (a b : pyval) (p : list key) {struct p} : bool :=
  match p with
  | [] => false
  | key :: p' =>
      match a, b with
      | VDict da, VDict db =>
          match dict_lookup key da, dict_lookup key db with
          | Some akey, Some bkey =>
              if is_dict akey && is_dict bkey then merge_replaces akey bkey p' else true
          | _, _ => false
          end
      | _, _ => false
      end
  end.

(** The same for a list [b]: the turns of the loop up to the one that
    raises, each of which acts on [a] as the merge of [{key: b[key]}]. *)
Fixpoint merge_seq_replaces (b : list pyval) (todo : list pyval) (a : dict) (p : list key)
  : bool :=
  match todo with
  | [] => false
  | key :: rest =>
      let bkey :=
        match key with
        | VInt i => seq_index b i
        | VBool t => seq_index b (if t then 1 else 0)
        | _ => None
        end in
      match as_key key, bkey with
      | Some k, Some bkey =>
          merge_replaces (VDict a) (VDict [(k, bkey)]) p
          || merge_seq_replaces b rest (dict_merge_seq b [key] a).1 p
      | _, _ => false
      end
  end.

Definition dict_merge_replaces (a b : pyval) (p : list key) : bool :=
  match a, b with
  | VDict _, VDict _ => merge_replaces a b p
  | VDict da, VList l => merge_seq_replaces l l da p
  | _, _ => false
  end.

(** ** The node object and its effects *)

(** A frame of a transport message.  [frame_json] is what
    [json.loads(frame.decode('utf-8'))] evaluates to, [None] when that
    raises. *)
Record frame : Type := Frame {
  frame_bytes : string;
  frame_json : option pyval
}.

(** What [recv_multipart] hands to [get_message]: the event type (first
    frame, decoded), the peer (second frame, a UUID) and the remaining
    frames. *)
Record event : Type := Event {
  ev_type : string;
  ev_peer : N;
  ev_frames : list frame
}.

(** Calls that leave the node: transport sends and the overridable
    callbacks.  [Whisper p m] is [self.whisper(p, json.dumps(m).encode('utf-8'))],
    likewise [Shout]; the [On...] events are the calls of the callbacks, whose
    bodies in [ZOCP] print their arguments; [PrintError] is the
    [print("ERROR: ...")] of [get_message]. *)
Inductive effect : Type :=
| Whisper (peer : N) (msg : pyval)
| Shout (grp : string) (msg : pyval)
| OnPeerEnter (peer : N) (msg : list frame)
| OnPeerExit (peer : N) (msg : list frame)
| OnPeerJoin (peer : N) (grp : frame) (msg : list frame)
| OnPeerLeave (peer : N) (grp : frame) (msg : list frame)
| OnPeerWhisper (peer : N) (msg : list frame)
| OnPeerShout (peer : N) (grp : frame) (msg : list frame)
| OnPeerModified (peer : N) (data : pyval)
| OnPeerReplied (peer : N) (data : pyval)
| OnPeerSignaled (peer : N) (data : pyval)
| OnModified (data : pyval) (peer : option N)
| PrintError.

(** The attributes of a [ZOCP] instance.  [self._cur_obj] is a reference to
    an object, which is part of the capability tree or not:
    - [__init__] and [set_object] bind the reference to an object of the
      tree.  [_cur_obj] is the access path of that object ([[]] is
      [self.capability] itself); while [_cur_obj_detached] is [None] the
      reference is the object found at that path, and a store through the
      reference is a store into the tree;
    - an assignment that puts another value in the place of that object, or
      of a dict above it, leaves the reference on the replaced object, which
      the tree no longer holds.  [_cur_obj_detached] is that object from
      then on: stores through the reference go to it and do not reach the
      tree, until [set_object] binds the reference anew. *)
Record ZOCP : Type := mkZOCP {
  peers : gmap N pyval;
  name : pyval;
  capability : pyval;
  _cur_obj : list key;
  _cur_obj_detached : option pyval;
  _cur_obj_keys : list key;
  _running : bool
}.

(** A method body: from the node before the call to the outcome, the node
    after it and the effects emitted, in order. *)
Definition M (A : Type) : Type := ZOCP -> outcome A * ZOCP * list effect.

Definition ret {A} (x : A) : M A := fun self => (Ret x, self, []).

Definition bind {A B} (m : M A) (k : A -> M B) : M B :=
  fun self =>
    match m self with
    | (Ret x, self', out) =>
        let '(r, self'', out') := k x self' in (r, self'', (out ++ out')%list)
    | (Raise e, self', out) => (Raise e, self', out)
    end.

Definition raise {A} (e : exn) : M A := fun self => (Raise e, self, []).

Definition emit (ev : effect) : M unit := fun self => (Ret tt, self, [ev]).

Definition gets {A} (f : ZOCP -> A) : M A := fun self => (Ret (f self), self, []).

Definition modify (f : ZOCP -> ZOCP) : M unit := fun self => (Ret tt, f self, []).

(** [try: m except Exception: h] *)
Definition try_except {A} (m : M A) (h : exn -> M A) : M A :=
  fun self =>
    match m self with
    | (Raise e, self', out) =>
        let '(r, self'', out') := h e self' in (r, self'', (out ++ out')%list)
    | r => r
    end.

Definition lift {A} (r : outcome A) : M A :=
  match r with Ret x => ret x | Raise e => raise e end.

Declare Scope zocp_scope.
Delimit Scope zocp_scope with zocp.
Notation "x <- m ;; k" := (bind m (fun x => k))
  (at level 100, m at next level, k at level 200, right associativity) : zocp_scope.
Notation "m ;; k" := (bind m (fun _ => k))
  (at level 100, k at level 200, right associativity) : zocp_scope.
Local Open Scope zocp_scope.

Definition set_peers (p : gmap N pyval) : M unit :=
  modify (fun self => mkZOCP p (name self) (capability self) (_cur_obj self)
                             (_cur_obj_detached self) (_cur_obj_keys self) (_running self)).

Definition set_capability_attr (c : pyval) : M unit :=
  modify (fun self => mkZOCP (peers self) (name self) c (_cur_obj self)
                             (_cur_obj_detached self) (_cur_obj_keys self) (_running self)).

(** [self._cur_obj = self.capability[k1]...[kn]]: the reference is bound to
    the object of the tree at the path [p]. *)
Definition set_cur_obj (p : list key) : M unit :=
  modify (fun self => mkZOCP (peers self) (name self) (capability self) p None
                             (_cur_obj_keys self) (_running self)).

Definition set_cur_obj_keys (ks : list key) : M unit :=
  modify (fun self => mkZOCP (peers self) (name self) (capability self)
                             (_cur_obj self) (_cur_obj_detached self) ks (_running self)).

(** [self] once the tree has let go of the object [o] that [self._cur_obj]
    refers to. *)
Definition with_detached (self : ZOCP) (o : pyval) : ZOCP :=
  mkZOCP (peers self) (name self) (capability self) (_cur_obj self) (Some o)
         (_cur_obj_keys self) (_running self).

(** What an assignment in the capability tree does to [self._cur_obj]:
    when the object the reference is bound to is among those the assignment
    replaces, the tree holds the new value afterwards and the reference the
    replaced object.  [let_go] comes before the assignment; [replaced] tells
    whether the object at a path is replaced. *)
Definition let_go (replaced : list key -> bool) : M unit :=
  modify (fun self =>
            match _cur_obj_detached self, dict_get (capability self) (_cur_obj self) with
            | None, Ret o => if replaced (_cur_obj self) then with_detached self o else self
            | _, _ => self
            end).

Definition outcome_of {A} (r : outcome A * ZOCP * list effect) : outcome A := r.1.1.
Definition node_of {A} (r : outcome A * ZOCP * list effect) : ZOCP := r.1.2.
Definition effects_of {A} (r : outcome A * ZOCP * list effect) : list effect := r.2.

(** ** Callbacks and transport sends *)

Definition whisper (peer : N) (msg : pyval) : M unit := emit (Whisper peer msg).
Definition shout (grp : string) (msg : pyval) : M unit := emit (Shout grp msg).

Definition on_peer_enter (peer : N) (msg : list frame) : M unit :=
  emit (OnPeerEnter peer msg).
Definition on_peer_exit (peer : N) (msg : list frame) : M unit :=
  emit (OnPeerExit peer msg).
Definition on_peer_join (peer : N) (grp : frame) (msg : list frame) : M unit :=
  emit (OnPeerJoin peer grp msg).
Definition on_peer_leave (peer : N) (grp : frame) (msg : list frame) : M unit :=
  emit (OnPeerLeave peer grp msg).
Definition on_peer_whisper (peer : N) (msg : list frame) : M unit :=
  emit (OnPeerWhisper peer msg).
Definition on_peer_shout (peer : N) (grp : frame) (msg : list frame) : M unit :=
  emit (OnPeerShout peer grp msg).
Definition on_peer_modified (peer : N) (data : pyval) : M unit :=
  emit (OnPeerModified peer data).
Definition on_peer_replied (peer : N) (data : pyval) : M unit :=
  emit (OnPeerReplied peer data).
Definition on_peer_signaled (peer : N) (data : pyval) : M unit :=
  emit (OnPeerSignaled peer data).
Definition on_modified (data : pyval) (peer : option N) : M unit :=
  emit (OnModified data peer).

(** ** Node methods *)

(** A key as the object it is when a dict is iterated. *)
Definition key_val (k : key) : pyval :=
  match k with
  | KNone => VNone
  | KStr s => VStr s
  | KInt z => VInt z
  | KFloat f => VFloat f
  end.

(** [ZOCP(capability)]: the attributes after [__init__]. *)
Definition ZOCP_init (capability : pyval) : outcome ZOCP :=
  match capability with
  | VDict d =>
      Ret (mkZOCP ∅
                  (match dict_lookup (KStr "_name") d with Some v => v | None => VNone end)
                  capability [] None [] false)
  | _ => Raise AttributeError
  end.

Definition get_capability : M pyval := gets capability.

Definition _on_modified (data : pyval) (peer : option N) : M unit :=
  keys <- gets _cur_obj_keys ;;
  let data :=
    match keys with
    | [] => data
    | _ =>
        (* for key in self._cur_obj_keys[-2::-1]: data = {key: data} *)
        let data := fold_left (fun data key => VDict [(key, data)]) (tail (rev keys)) data in
        (* data = self._cur_obj_keys *)
        VList (map key_val keys)
    end in
  on_modified data peer ;;
  running <- gets _running ;;
  if running
  then cap <- gets capability ;; shout "ZOCP" (VDict [(KStr "MOD", cap)])
  else ret tt.

(** [self._cur_obj[k1]...[kn] = v]: a store into the tree while the object
    is part of it, into the object alone afterwards. *)
Definition cur_obj_store (sub : list key) (v : pyval) : M unit :=
  detached <- gets _cur_obj_detached ;;
  match detached with
  | None =>
      p <- gets _cur_obj ;;
      cap <- gets capability ;;
      cap' <- lift (dict_set cap (p ++ sub)%list v) ;;
      set_capability_attr cap'
  | Some o =>
      o' <- lift (dict_set o sub v) ;;
      modify (fun self => with_detached self o')
  end.

(** [self._cur_obj[k1]...[kn]] as an expression on [self]. *)
Definition cur_obj_item (self : ZOCP) (sub : list key) : outcome pyval :=
  match _cur_obj_detached self with
  | None => dict_get (capability self) (_cur_obj self ++ sub)%list
  | Some o => dict_get o sub
  end.

Definition cur_obj_load (sub : list key) : M pyval :=
  self <- gets id ;;
  lift (cur_obj_item self sub).

(** [self.capability.get(k)] *)
Definition capability_get (k : key) : M pyval :=
  cap <- gets capability ;;
  match cap with
  | VDict d => ret (match dict_lookup k d with Some v => v | None => VNone end)
  | _ => raise AttributeError
  end.

Definition set_object (name : key) (type : pyval) : M unit :=
  (if key_eqb name KNone
   then set_cur_obj [] ;; set_cur_obj_keys []
   else ret tt) ;;
  objects <- capability_get (KStr "objects") ;;
  (if negb (truthy objects)
   then
     cap <- gets capability ;;
     cap' <- lift (py_setitem cap (KStr "objects")
                     (VDict [(name, VDict [(KStr "type", type)])])) ;;
     set_capability_attr cap'
   else
     entry <- match objects with
              | VDict d => ret (match dict_lookup name d with Some v => v | None => VNone end)
              | _ => raise AttributeError
              end ;;
     cap <- gets capability ;;
     cap' <- lift (if negb (truthy entry)
                   then dict_set cap [KStr "objects"; name] (VDict [(KStr "type", type)])
                   else dict_set cap [KStr "objects"; name; KStr "type"] type) ;;
     set_capability_attr cap') ;;
  set_cur_obj [KStr "objects"; name] ;;
  set_cur_obj_keys [KStr "objects"; name].

(** The common body of [register_int], [register_float], [register_percent],
    [register_vec2f] and [register_vec3f], which differ in the type hint. *)
Definition register_bounded (hint : string) (name : key) (value access min max step : pyval)
  : M unit :=
  cur_obj_store [name]
    (VDict [(KStr "value", value); (KStr "typeHint", VStr hint); (KStr "access", access)]) ;;
  (if truthy min then cur_obj_store [name; KStr "min"] min else ret tt) ;;
  (if truthy max then cur_obj_store [name; KStr "max"] max else ret tt) ;;
  (if truthy step then cur_obj_store [name; KStr "step"] step else ret tt) ;;
  node <- cur_obj_load [name] ;;
  _on_modified (VDict [(KStr "name", node)]) None.

Definition register_int := register_bounded "int".
Definition register_float := register_bounded "float".
Definition register_percent := register_bounded "percent".
Definition register_vec2f := register_bounded "vec3f".
Definition register_vec3f := register_bounded "vec3f".

(** The common body of [register_bool] and [register_string]. *)
Definition register_plain (hint : string) (name : key) (value access : pyval) : M unit :=
  cur_obj_store [name]
    (VDict [(KStr "value", value); (KStr "typeHint", VStr hint); (KStr "access", access)]) ;;
  node <- cur_obj_load [name] ;;
  _on_modified (VDict [(KStr "name", node)]) None.

Definition register_bool := register_plain "bool".
Definition register_string := register_plain "string".

Definition register_vec4f (name : key) (value access min max step : pyval) : M unit :=
  cur_obj_store [name]
    (VDict [(KStr "value", value); (KStr "typeHint", VStr "vec4f"); (KStr "access", access)]) ;;
  (if truthy min then cur_obj_store [name; KStr "min"] min else ret tt) ;;
  (if truthy max then cur_obj_store [name; KStr "max"] max else ret tt) ;;
  (if truthy step then cur_obj_store [name; KStr "step"] step else ret tt) ;;
  running <- gets _running ;;
  if running
  then cap <- gets capability ;;
       node <- lift (py_getitem cap name) ;;
       on_modified (VDict [(KStr "name", node)]) None
  else ret tt.

(** ** Node methods to peers *)

Definition peer_get (peer : N) (keys : pyval) : M unit :=
  whisper peer (VDict [(KStr "GET", keys)]).

Definition peer_get_capability (peer : N) : M unit := peer_get peer VNone.

Definition peer_set (peer : N) (data : pyval) : M unit :=
  whisper peer (VDict [(KStr "SET", data)]).

Definition peer_call (peer : N) (method : pyval) (args : list pyval) : M unit :=
  whisper peer (VDict [(KStr "CALL", VList [method; VList args])]).

Definition peer_subscribe (peer : N) (signal sensor : pyval) : M unit :=
  whisper peer (VDict [(KStr "SUB", VList [signal; sensor])]).

Definition peer_unsubscribe (peer : N) (signal sensor : pyval) : M unit :=
  whisper peer (VDict [(KStr "SUB", VList [signal; sensor])]).

(** ** Internal methods: the dispatcher *)

(** The objects [for x in data] runs over. *)
Definition py_iter (data : pyval) : outcome (list pyval) :=
  match data with
  | VDict d => Ret (map (fun kv => key_val kv.1) d)
  | VList l => Ret l
  | VStr s => Ret (map (fun c => VStr (String c EmptyString)) (list_ascii_of_string s))
  | _ => Raise TypeError
  end.

(** The loop of [_handle_GET]: [ret[get_item] = self.capability.get(get_item)]. *)
Fixpoint collect_items (items : list pyval) (ret_ : dict) : M dict :=
  match items with
  | [] => ret ret_
  | get_item :: rest =>
      cap <- gets capability ;;
      match cap with
      | VDict d =>
          match as_key get_item with
          | Some k =>
              collect_items rest
                (dict_store k (match dict_lookup k d with Some v => v | None => VNone end) ret_)
          | None => raise TypeError
          end
      | _ => raise AttributeError
      end
  end.

Definition _handle_GET (data : pyval) (peer : N) (grp : option frame) : M unit :=
  if negb (truthy data)
  then
    cap <- get_capability ;;
    whisper peer (VDict [(KStr "MOD", cap)])
  else
    items <- lift (py_iter data) ;;
    ret_ <- collect_items items [] ;;
    peer_set peer data ;;
    whisper peer (VDict [(KStr "MOD", VDict ret_)]).

(** [self.capability = dict_merge(self.capability, data)]: the merge
    replaces objects inside a dict, and the assignment replaces a capability
    that is no dict by [data]. *)
Definition _handle_SET (data : pyval) (peer : N) (grp : option frame) : M unit :=
  cap <- gets capability ;;
  let_go (fun p => if is_dict cap then dict_merge_replaces cap data p else true) ;;
  match dict_merge cap data with
  | (_, Ret merged) => set_capability_attr merged ;; on_modified data (Some peer)
  | (cap', Raise e) => set_capability_attr cap' ;; raise e
  end.

Definition _handle_CALL (data : pyval) (peer : N) (grp : option frame) : M unit := ret tt.
Definition _handle_SUB (data : pyval) (peer : N) (grp : option frame) : M unit := ret tt.
Definition _handle_UNSUB (data : pyval) (peer : N) (grp : option frame) : M unit := ret tt.
Definition _handle_REP (data : pyval) (peer : N) (grp : option frame) : M unit := ret tt.
Definition _handle_SIG (data : pyval) (peer : N) (grp : option frame) : M unit := ret tt.

Definition _handle_MOD (data : pyval) (peer : N) (grp : option frame) : M unit :=
  ps <- gets peers ;;
  match dict_merge (default VNone (ps !! peer)) data with
  | (_, Ret merged) => set_peers (<[peer := merged]> ps) ;; on_peer_modified peer data
  | (mirror', Raise e) =>
      (* the mirror was merged into in place up to the failure *)
      match ps !! peer with
      | Some _ => set_peers (<[peer := mirror']> ps)
      | None => ret tt
      end ;;
      raise e
  end.

(** [msg.pop(0)] *)
Definition pop0 (msg : list frame) : M (frame * list frame) :=
  match msg with
  | [] => raise IndexError
  | f :: msg' => ret (f, msg')
  end.

(** The last branch of the verb dispatch.  [ZOCP] has no attribute whose
    name starts with [handle_], so the lookup raises inside the [try]. *)
Definition handle_other (method : key) (data : pyval) : M unit :=
  try_except
    (match method with
     | KStr _ => raise AttributeError      (* getattr(self, 'handle_' + method) *)
     | _ => raise TypeError                (* 'handle_' + method *)
     end)
    (fun _ => raise (Exception method)).

Definition handle_verb (msg : pyval) (method : key) (peer : N) (grp : option frame)
  : M unit :=
  data <- lift (py_getitem msg method) ;;
  if key_eqb method (KStr "GET") then _handle_GET data peer grp
  else if key_eqb method (KStr "SET") then _handle_SET data peer grp
  else if key_eqb method (KStr "CALL") then _handle_CALL data peer grp
  else if key_eqb method (KStr "SUB") then _handle_SUB data peer grp
  else if key_eqb method (KStr "UNSUB") then _handle_UNSUB data peer grp
  else if key_eqb method (KStr "REP") then _handle_REP data peer grp
  else if key_eqb method (KStr "MOD") then _handle_MOD data peer grp
  else if key_eqb method (KStr "SIG") then _handle_SIG data peer grp
  else handle_other method data.

(** [for method in msg.keys(): ...] *)
Fixpoint handle_verbs (msg : pyval) (methods : list key) (peer : N) (grp : option frame)
  : M unit :=
  match methods with
  | [] => ret tt
  | method :: rest =>
      handle_verb msg method peer grp ;; handle_verbs msg rest peer grp
  end.

(** The tail of [get_message], reached for SHOUT and WHISPER: decode the
    next frame inside [try], dispatch in its [else]. *)
Definition decode_and_dispatch (msg : list frame) (peer : N) (grp : option frame)
  : M unit :=
  decoded <- try_except
               (popped <- pop0 msg ;;
                match frame_json popped.1 with
                | Some v => ret (Some v)
                | None => raise ValueError
                end)
               (fun e => emit PrintError ;; ret None) ;;
  match decoded with
  | None => ret tt
  | Some (VDict items) => handle_verbs (VDict items) (map fst items) peer grp
  | Some _ => raise AttributeError      (* msg.keys() *)
  end.

Definition get_message (ev : event) : M unit :=
  let type := ev_type ev in
  let peer := ev_peer ev in
  let msg := ev_frames ev in
  if String.eqb type "ENTER" then
    ps <- gets peers ;;
    (if negb (bool_decide (is_Some (ps !! peer)))
     then set_peers (<[peer := VDict []]> ps)
     else ret tt) ;;
    peer_get_capability peer ;;
    on_peer_enter peer msg
  else if String.eqb type "EXIT" then
    on_peer_exit peer msg ;;
    ps <- gets peers ;;
    match ps !! peer with
    | Some _ => set_peers (delete peer ps)
    | None => raise KeyError
    end
  else if String.eqb type "JOIN" then
    popped <- pop0 msg ;;
    let '(grp, msg) := popped in
    on_peer_join peer grp msg
  else if String.eqb type "LEAVE" then
    popped <- pop0 msg ;;
    let '(grp, msg) := popped in
    on_peer_leave peer grp msg
  else if String.eqb type "SHOUT" then
    popped <- pop0 msg ;;
    let '(grp, msg) := popped in
    on_peer_shout peer grp msg ;;
    decode_and_dispatch msg peer (Some grp)
  else if String.eqb type "WHISPER" then
    on_peer_whisper peer msg ;;
    decode_and_dispatch msg peer None
  else ret tt.

(** * Vocabulary of the properties *)

(** ** Well-formed values and the merge loop *)

(** A Python dict holds a key once.  [well_formed] says so of every dict
    inside a value built from association lists. *)
Fixpoint uniq (ks : list key) : bool :=
  match ks with
  | [] => true
  | k :: ks' => negb (existsb (key_eqb k) ks') && uniq ks'
  end.

Fixpoint well_formed (v : pyval) : bool :=
  match v with
  | VList l => forallb well_formed l
  | VDict d => uniq (map fst d) && forallb (fun kv => well_formed kv.2) d
  | _ => true
  end.

(** One turn of the loop of [dict_merge]. *)
Definition merge_step (a : dict) (kv : key * pyval) : dict :=
  match dict_lookup kv.1 a with
  | Some akey =>
      if is_dict akey && is_dict kv.2
      then dict_store kv.1 (dict_merge_rec akey kv.2) a
      else dict_store kv.1 kv.2 a
  | None => dict_store kv.1 kv.2 a
  end.

(** [w] already holds [v]: merging [v] into [w] once more changes nothing. *)
Definition absorbed (w v : pyval) : Prop :=
  (if is_dict w && is_dict v then dict_merge_rec w v else v) = w.

(** Merging [v] a second time, into itself or into any tree that already
    received it, changes nothing. *)
Definition merge_stable (v : pyval) : Prop :=
  dict_merge_rec v v = v /\
  forall t, dict_merge_rec (dict_merge_rec t v) v = dict_merge_rec t v.

(** ** SET requests *)

(** The access string of an attribute node has no ['w']. *)
Fixpoint has_w (s : string) : bool :=
  match s with
  | EmptyString => false
  | String c s' => Ascii.eqb c "w"%char || has_w s'
  end.

Definition access_lacks_w (node : pyval) : bool :=
  match node with
  | VDict d =>
      match dict_lookup (KStr "access") d with
      | Some (VStr a) => negb (has_w a)
      | _ => false
      end
  | _ => false
  end.

(** C1 as the specification words it: at every path of the payload where the
    tree has a node whose access lacks ['w'], the tree is the same after the
    SET as before. *)
Definition SET_honours_access (self : ZOCP) (data : pyval) (peer : N) : Prop :=
  forall p sub node,
    p <> [] ->
    dict_get data p = Ret sub ->
    dict_get (capability self) p = Ret node ->
    access_lacks_w node = true ->
    dict_get (capability (node_of (_handle_SET data peer None self))) p = Ret node.

Definition read_only_B : ZOCP :=
  mkZOCP ∅ VNone
    (VDict [(KStr "B", VDict [(KStr "value", VStr "x");
                              (KStr "typeHint", VStr "string");
                              (KStr "access", VStr "r")])])
    [] None [] true.

Definition set_B_y : pyval :=
  VDict [(KStr "B", VDict [(KStr "value", VStr "y")])].

(** ** GET requests *)

Definition node_A : ZOCP :=
  mkZOCP ∅ VNone
    (VDict [(KStr "A", VDict [(KStr "value", VInt 7);
                              (KStr "typeHint", VStr "int");
                              (KStr "access", VStr "r")])])
    [] None [] true.

(** C2 as the specification words it: a GET with a null payload is answered
    by one whisper of [{REP: full_tree}]. *)
Definition GET_null_replies_REP (self : ZOCP) (peer : N) : Prop :=
  effects_of (_handle_GET VNone peer None self)
  = [Whisper peer (VDict [(KStr "REP", capability self)])].

(** ** REP and MOD *)

(** C8 as the specification words it: a REP leaves the peer registry as a MOD
    with the same payload does, and calls [on_peer_replied]. *)
Definition REP_handled_like_MOD (self : ZOCP) (data : pyval) (peer : N) : Prop :=
  peers (node_of (_handle_REP data peer None self))
  = peers (node_of (_handle_MOD data peer None self)) /\
  effects_of (_handle_REP data peer None self) = [OnPeerReplied peer data].

Definition node_with_peer : ZOCP :=
  mkZOCP {[ 7%N := VDict [] ]} VNone (VDict []) [] None [] true.

(** ** Insertion scope *)

Definition fresh_node : ZOCP := mkZOCP ∅ VNone (VDict []) [] None [] false.

(** ** Unknown verbs *)

Definition known_verb (verb : string) : bool :=
  existsb (String.eqb verb) ["GET"; "SET"; "CALL"; "SUB"; "UNSUB"; "REP"; "MOD"; "SIG"].

(** C7 as the specification words it: the message is dropped, the handler
    returns and the node is as before. *)
Definition unknown_verb_dropped (self : ZOCP) (ev : event) : Prop :=
  outcome_of (get_message ev self) = Ret tt /\
  node_of (get_message ev self) = self.

(** ** Events that are handled to completion *)

Definition hashable (v : pyval) : bool :=
  match as_key v with Some _ => true | None => false end.

(** A GET payload the handler can answer: empty, or an iterable of hashable
    items (a list of keys, an object, a string). *)
Definition GET_payload_ok (data : pyval) : bool :=
  negb (truthy data) ||
  match py_iter data with
  | Ret items => forallb hashable items
  | Raise _ => false
  end.

Definition verb_ok (method : key) (data : pyval) : bool :=
  if key_eqb method (KStr "GET") then GET_payload_ok data
  else if key_eqb method (KStr "SET") then is_dict data
  else if key_eqb method (KStr "CALL") then true
  else if key_eqb method (KStr "SUB") then true
  else if key_eqb method (KStr "UNSUB") then true
  else if key_eqb method (KStr "REP") then true
  else if key_eqb method (KStr "MOD") then is_dict data
  else if key_eqb method (KStr "SIG") then true
  else false.

(** The frames after the group: no frame, a frame that is not JSON, or a
    JSON object whose verbs are all known and carry a payload of the right
    kind. *)
Definition payload_ok (msg : list frame) : bool :=
  match msg with
  | [] => true
  | f :: _ =>
      match frame_json f with
      | None => true
      | Some (VDict items) => forallb (fun kv => verb_ok kv.1 kv.2) items
      | Some _ => false
      end
  end.

Definition event_ok (self : ZOCP) (ev : event) : bool :=
  let type := ev_type ev in
  if String.eqb type "ENTER" then true
  else if String.eqb type "EXIT" then bool_decide (is_Some (peers self !! ev_peer ev))
  else if String.eqb type "JOIN" then match ev_frames ev with [] => false | _ => true end
  else if String.eqb type "LEAVE" then match ev_frames ev with [] => false | _ => true end
  else if String.eqb type "SHOUT"
       then match ev_frames ev with [] => false | _ :: msg => payload_ok msg end
  else if String.eqb type "WHISPER" then payload_ok (ev_frames ev)
  else true.

(** A verb key the dispatcher has no handler for. *)
Definition other_verb (method : key) : bool :=
  match method with
  | KStr verb => negb (known_verb verb)
  | _ => true
  end.

(** The frames after the group start with a JSON object one of whose verb
    keys has no handler. *)
Definition payload_has_other_verb (msg : list frame) : bool :=
  match msg with
  | f :: _ =>
      match frame_json f with
      | Some (VDict items) => existsb other_verb (map fst items)
      | _ => false
      end
  | [] => false
  end.

Definition carries_other_verb (ev : event) : bool :=
  let type := ev_type ev in
  if String.eqb type "SHOUT"
  then match ev_frames ev with [] => false | _ :: msg => payload_has_other_verb msg end
  else if String.eqb type "WHISPER" then payload_has_other_verb (ev_frames ev)
  else false.

(** C4 as the specification words it: the handler returns. *)
Definition handler_returns (self : ZOCP) (ev : event) : Prop :=
  outcome_of (get_message ev self) = Ret tt.

(** ** Outcomes of method calls *)

(** [m] returns from [self], with a result and a node that satisfy [Q]. *)
Definition returns {A} (m : M A) (self : ZOCP) (Q : A -> ZOCP -> Prop) : Prop :=
  exists x self' out, m self = (Ret x, self', out) /\ Q x self'.

Definition capability_is_dict {A} (_ : A) (self : ZOCP) : Prop :=
  is_dict (capability self) = true.

(** What a call may do to a node through [self._cur_obj]: the bindings and
    the peers are as before, the reference is still bound to an object of the
    tree if it was, and the tree is as before if it was not. *)
Definition same_node (self self' : ZOCP) : Prop :=
  _cur_obj self' = _cur_obj self /\
  _cur_obj_keys self' = _cur_obj_keys self /\
  _running self' = _running self /\
  name self' = name self /\
  peers self' = peers self /\
  match _cur_obj_detached self with
  | None => _cur_obj_detached self' = None
  | Some _ => _cur_obj_detached self' <> None /\ capability self' = capability self
  end.

(** What the scope and the rest of the node look like after a call. *)
Definition scope_holds (self : ZOCP) (o : pyval) {A} (_ : A) (self' : ZOCP) : Prop :=
  cur_obj_item self' [] = Ret o /\ same_node self self'.

(** ** Registering attributes *)

(** The attribute node [register_int] and its siblings build. *)
Definition attribute_node (hint : string) (value access min max step : pyval) : dict :=
  let node := [(KStr "value", value); (KStr "typeHint", VStr hint); (KStr "access", access)] in
  let node := if truthy min then dict_store (KStr "min") min node else node in
  let node := if truthy max then dict_store (KStr "max") max node else node in
  if truthy step then dict_store (KStr "step") step node else node.

(** [v == 0] *)
Definition equals_zero (v : pyval) : bool :=
  match v with
  | VInt z => z =? 0
  | VFloat (S754_zero _) => true
  | VBool b => negb b
  | _ => false
  end.

(** * Further methods of [zocp.py] *)

(** [get_node_name(self, name)]: the argument is not used. *)
Definition get_node_name (name : pyval) : M pyval := capability_get (KStr "_name").

(** The common body of [set_node_name], [set_node_location],
    [set_node_orientation], [set_node_scale] and [set_node_matrix]:
    [self.capability[key] = value], then [_on_modified] with
    [{notified: value}]. *)
Definition set_node_attr (key notified : string) (value : pyval) : M unit :=
  cap <- gets capability ;;
  cap' <- lift (py_setitem cap (KStr key) value) ;;
  let_go (fun p => match p with k :: _ => key_eqb k (KStr key) | [] => false end) ;;
  set_capability_attr cap' ;;
  _on_modified (VDict [(KStr notified, value)]) None.

Definition set_node_name := set_node_attr "_name" "_name".
Definition set_node_location := set_node_attr "_location" "_location".
Definition set_node_orientation := set_node_attr "_orientation" "_orientation".
Definition set_node_scale := set_node_attr "_scale" "scale".
Definition set_node_matrix := set_node_attr "_matrix" "_matrix".

Definition newline : string := String (ascii_of_nat 10) EmptyString.

Section dict_get_keys.
(** ["%s" % k] for a key [k]: the string itself for a string key. *)
Variable str_of_key : key -> string.

(** [dict_get_keys(d, keylist)] *)
Fixpoint dict_get_keys (d : pyval) (keylist : string) : outcome string :=
  match d with
  | VDict items =>
      (fix each (items : dict) (keylist : string) {struct items} : outcome string :=
         match items with
         | [] => Ret keylist
         | (k, v) :: rest =>
             match v with
             | VDict _ =>
                 (* entering branch add seperator and enter *)
                 match dict_get_keys v (keylist ++ "." ++ str_of_key k) with
                 | Ret keylist => each rest keylist
                 | Raise e => Raise e
                 end
             | _ =>
                 (* going back save this branch *)
                 each rest (keylist ++ "." ++ str_of_key k ++ newline ++ keylist)
             end
         end) items keylist
  | _ => Raise AttributeError      (* d.items() *)
  end.
End dict_get_keys.

(** ** Vocabulary of the further properties *)

(** The attributes the dispatcher has no business with. *)
Definition same_scope (self self' : ZOCP) : Prop :=
  _cur_obj self' = _cur_obj self /\
  _cur_obj_keys self' = _cur_obj_keys self /\
  _running self' = _running self /\
  name self' = name self.

(** An effect that sends nothing, or whispers to [peer]. *)
Definition replies_to (peer : N) (e : effect) : Prop :=
  match e with
  | Whisper p _ => p = peer
  | Shout _ _ => False
  | _ => True
  end.

(** [m] relates the node before and after by [R], whatever the outcome, and
    sends only whispers to [peer]. *)
Definition keeps {A} (R : ZOCP -> ZOCP -> Prop) (peer : N) (m : M A) : Prop :=
  forall self,
    R self (node_of (m self)) /\ Forall (replies_to peer) (effects_of (m self)).

(** [R] relates the node before and after each of the two writes of
    [_handle_SET]. *)
Definition SET_keeps (R : ZOCP -> ZOCP -> Prop) : Prop :=
  (forall s c, R s (node_of (set_capability_attr c s))) /\
  (forall s replaced, R s (node_of (let_go replaced s))).

(** The verb keys of the JSON object a SHOUT or WHISPER carries. *)
Definition event_verbs (ev : event) : list key :=
  let payload :=
    if String.eqb (ev_type ev) "SHOUT" then tail (ev_frames ev)
    else if String.eqb (ev_type ev) "WHISPER" then ev_frames ev
    else [] in
  match payload with
  | f :: _ =>
      match frame_json f with
      | Some (VDict items) => map fst items
      | _ => []
      end
  | [] => []
  end.

(** The verbs whose handlers return at once. *)
Definition inert_verb (method : key) : bool :=
  existsb (key_eqb method) [KStr "CALL"; KStr "SUB"; KStr "UNSUB"; KStr "REP"; KStr "SIG"].

(** A payload that is neither an object nor iterable. *)
Definition is_scalar (v : pyval) : bool :=
  match v with
  | VNone | VBool _ | VInt _ | VFloat _ => true
  | _ => false
  end.

(** What [_on_modified] hands to [on_modified]: the data in the root scope,
    the tuple [_cur_obj_keys] inside an object. *)
Definition reported (keys : list key) (data : pyval) : pyval :=
  match keys with
  | [] => data
  | _ => VList (map key_val keys)
  end.

(** The calls [_on_modified] makes on [self]. *)
Definition modified_effects (self : ZOCP) (data : pyval) (peer : option N) : list effect :=
  OnModified (reported (_cur_obj_keys self) data) peer ::
  (if _running self then [Shout "ZOCP" (VDict [(KStr "MOD", capability self)])] else []).

(** [self] with another capability tree. *)
Definition with_capability (self : ZOCP) (cap : pyval) : ZOCP :=
  mkZOCP (peers self) (name self) cap (_cur_obj self) (_cur_obj_detached self)
         (_cur_obj_keys self) (_running self).

(** The state of [objects] that [set_object(name)] can work on: absent or
    empty, or a dict in which [name] is absent, empty or a dict. *)
Definition objects_ready (cap : dict) (name : key) : bool :=
  match dict_lookup (KStr "objects") cap with
  | None => true
  | Some objects =>
      negb (truthy objects) ||
      match objects with
      | VDict objs =>
          match dict_lookup name objs with
          | None => true
          | Some entry => negb (truthy entry) || is_dict entry
          end
      | _ => false
      end
  end.

(** The capability tree [set_object(name, type)] leaves. *)
Definition capability_after_set_object (cap : dict) (name : key) (type : pyval) : dict :=
  let fresh := VDict [(KStr "type", type)] in
  match dict_lookup (KStr "objects") cap with
  | Some (VDict ((_ :: _) as objs)) =>
      match dict_lookup name objs with
      | Some (VDict ((_ :: _) as entry)) =>
          dict_store (KStr "objects")
            (VDict (dict_store name (VDict (dict_store (KStr "type") type entry)) objs)) cap
      | _ => dict_store (KStr "objects") (VDict (dict_store name fresh objs)) cap
      end
  | _ => dict_store (KStr "objects") (VDict [(name, fresh)]) cap
  end.


(** [call] returns from [self] and notifies as [_on_modified] does, with the
    node found under [name] wrapped as [{'name': node}]. *)
Definition notifies_registration (call : M unit) (self : ZOCP) (name : key) : Prop :=
  exists self' node,
    call self
    = (Ret tt, self', modified_effects self' (VDict [(KStr "name", node)]) None) /\
    cur_obj_item self' [name] = Ret node /\
    match _cur_obj_detached self with
    | None => dict_get (capability self') (_cur_obj self ++ [name]) = Ret node
    | Some _ => capability self' = capability self
    end.

(** A running node whose scope, the object [lamp], has been replaced in the
    tree: [set_object("lamp", "light")], then the SET [{objects: {lamp: 1}}]
    and the SET [{objects: {lamp: {}}}]. *)
Definition detached_lamp : ZOCP :=
  mkZOCP ∅ VNone
    (VDict [(KStr "objects", VDict [(KStr "lamp", VDict [])])])
    [KStr "objects"; KStr "lamp"] (Some (VDict [(KStr "type", VStr "light")]))
    [KStr "objects"; KStr "lamp"] true.

(** [self._cur_obj] is not [self.capability]: it is bound to an object
    inside the tree, or to one that has left it. *)
Definition inside_object (self : ZOCP) : bool :=
  match _cur_obj_detached self, _cur_obj self with
  | None, [] => false
  | _, _ => true
  end.

(** * Properties *)

(** ** Keys *)

Lemma spec_float_eqb_spec f g : reflect (f = g) (spec_float_eqb f g).
Proof.
  destruct f as [s|s| |s m e], g as [t|t| |t n e']; simpl;
    try (constructor; congruence).
  - destruct (Bool.eqb_spec s t); constructor; congruence.
  - destruct (Bool.eqb_spec s t); constructor; congruence.
  - destruct (Bool.eqb_spec s t); simpl; [|constructor; congruence].
    destruct (Pos.eqb_spec m n); simpl; [|constructor; congruence].
    destruct (Z.eqb_spec e e'); constructor; congruence.
Qed.

Lemma key_eqb_spec j k : reflect (j = k) (key_eqb j k).
Proof.
  destruct j as [|s|x|f], k as [|t|y|g]; simpl; try (constructor; congruence).
  - destruct (String.eqb_spec s t); constructor; congruence.
  - destruct (Z.eqb_spec x y); constructor; congruence.
  - destruct (spec_float_eqb_spec f g); constructor; congruence.
Qed.

Lemma key_eqb_refl k : key_eqb k k = true.
Proof. destruct (key_eqb_spec k k); congruence. Qed.

Lemma key_eqb_neq j k : j <> k -> key_eqb j k = false.
Proof. destruct (key_eqb_spec j k); congruence. Qed.

(** ** [dict_merge] on sample payloads *)

Example merge_leaf :
  dict_merge (VDict [(KStr "B", VDict [(KStr "value", VStr "x");
                                       (KStr "typeHint", VStr "string");
                                       (KStr "access", VStr "r")])])
             (VDict [(KStr "B", VDict [(KStr "value", VStr "y")])])
  = (VDict [(KStr "B", VDict [(KStr "value", VStr "y");
                              (KStr "typeHint", VStr "string");
                              (KStr "access", VStr "r")])],
     Ret (VDict [(KStr "B", VDict [(KStr "value", VStr "y");
                                   (KStr "typeHint", VStr "string");
                                   (KStr "access", VStr "r")])])).
Proof. reflexivity. Qed.

Example merge_list_payload :
  dict_merge (VDict []) (VList [VInt 1; VInt 0])
  = (VDict [(KInt 1, VInt 0); (KInt 0, VInt 1)],
     Ret (VDict [(KInt 1, VInt 0); (KInt 0, VInt 1)])).
Proof. reflexivity. Qed.

Example merge_list_payload_raises :
  dict_merge (VDict []) (VList [VInt 0; VStr "A"])
  = (VDict [(KInt 0, VInt 0)], Raise TypeError).
Proof. reflexivity. Qed.

(** ** Association lists *)

Lemma dict_lookup_store_eq k v d : dict_lookup k (dict_store k v d) = Some v.
Proof.
  induction d as [|[j w] d IH]; simpl.
  - by rewrite key_eqb_refl.
  - destruct (key_eqb j k) eqn:E; simpl; by rewrite E.
Qed.

Lemma dict_lookup_store_ne j k v d :
  j <> k -> dict_lookup j (dict_store k v d) = dict_lookup j d.
Proof.
  intros Hne. induction d as [|[i w] d IH]; simpl.
  - rewrite key_eqb_neq; [done | congruence].
  - destruct (key_eqb_spec i k) as [->|Hik]; simpl.
    + rewrite key_eqb_neq; [done | congruence].
    + by rewrite IH.
Qed.

Lemma dict_store_same k v d : dict_lookup k d = Some v -> dict_store k v d = d.
Proof.
  induction d as [|[j w] d IH]; simpl; [done |].
  destruct (key_eqb_spec j k) as [->|Hjk].
  - by intros [= ->].
  - intros H. by rewrite IH.
Qed.

Lemma existsb_key_false k ks j :
  existsb (key_eqb k) ks = false -> In j ks -> k <> j.
Proof.
  intros Hex Hin ->. apply not_true_iff_false in Hex. apply Hex.
  apply existsb_exists. exists j. split; [done | apply key_eqb_refl].
Qed.

Lemma dict_lookup_fresh k (d : dict) :
  existsb (key_eqb k) (map fst d) = false -> dict_lookup k d = None.
Proof.
  induction d as [|[j w] d IH]; simpl; [done |].
  intros H. apply orb_false_elim in H as [Hkj Hrest].
  destruct (key_eqb_spec j k) as [->|Hjk].
  - by rewrite key_eqb_refl in Hkj.
  - by apply IH.
Qed.

Lemma dict_lookup_in k v (d : dict) :
  dict_lookup k d = Some v -> In (k, v) d.
Proof.
  induction d as [|[j w] d IH]; simpl; [done |].
  destruct (key_eqb_spec j k) as [->|Hjk].
  - intros [= ->]. by left.
  - intros H. right. by apply IH.
Qed.

Lemma dict_lookup_key_in k (d : dict) :
  In k (map fst d) -> exists v, dict_lookup k d = Some v.
Proof.
  induction d as [|[j w] d IH]; simpl; [done |].
  intros [->|Hin].
  - rewrite key_eqb_refl. by exists w.
  - destruct (key_eqb j k); [by exists w | by apply IH].
Qed.

(** ** The merge loop *)

Lemma dict_merge_rec_fold da db :
  dict_merge_rec (VDict da) (VDict db) = VDict (fold_left merge_step db da).
Proof.
  simpl. f_equal. revert da.
  induction db as [|[k v] db IH]; intros da; simpl; [done |].
  by rewrite IH.
Qed.

Lemma dict_merge_rec_not_dict a b : is_dict a = false -> dict_merge_rec a b = b.
Proof. by destruct a, b. Qed.

Lemma dict_merge_rec_is_dict a b :
  is_dict a = true -> is_dict (dict_merge_rec a b) = true.
Proof. destruct a; try done. by destruct b. Qed.

Lemma dict_merge_dict a (db : dict) :
  dict_merge a (VDict db)
  = (if is_dict a then dict_merge_rec a (VDict db) else a,
     Ret (dict_merge_rec a (VDict db))).
Proof. by destruct a. Qed.

Lemma merge_step_lookup_ne a kv j :
  j <> kv.1 -> dict_lookup j (merge_step a kv) = dict_lookup j a.
Proof.
  intros Hne. unfold merge_step.
  destruct (dict_lookup kv.1 a) as [akey|];
    [destruct (is_dict akey && is_dict kv.2) |]; by apply dict_lookup_store_ne.
Qed.

Lemma fold_merge_lookup_fresh items a k :
  existsb (key_eqb k) (map fst items) = false ->
  dict_lookup k (fold_left merge_step items a) = dict_lookup k a.
Proof.
  revert a. induction items as [|[j v] items IH]; intros a; simpl; [done |].
  intros H. apply orb_false_elim in H as [Hkj Hrest].
  rewrite IH by done. apply merge_step_lookup_ne. simpl.
  intros ->. by rewrite key_eqb_refl in Hkj.
Qed.

Lemma merge_step_absorbed a k v w :
  dict_lookup k a = Some w -> absorbed w v -> merge_step a (k, v) = a.
Proof.
  unfold merge_step, absorbed. simpl. intros Hw Habs. rewrite Hw.
  destruct (is_dict w && is_dict v); rewrite Habs; by apply dict_store_same.
Qed.

Lemma fold_merge_absorbed items a :
  Forall (fun kv => exists w, dict_lookup kv.1 a = Some w /\ absorbed w kv.2) items ->
  fold_left merge_step items a = a.
Proof.
  induction 1 as [|[k v] items (w & Hw & Habs) _ IH]; simpl; [done |].
  by rewrite (merge_step_absorbed a k v w).
Qed.

Lemma uniq_lookup k v (d : dict) :
  uniq (map fst d) = true -> In (k, v) d -> dict_lookup k d = Some v.
Proof.
  induction d as [|[j w] d IH]; simpl; [done |].
  intros Hu. apply andb_prop in Hu as [Hfresh Hu].
  apply negb_true_iff in Hfresh.
  intros [[= -> ->]|Hin].
  - by rewrite key_eqb_refl.
  - rewrite key_eqb_neq; [by apply IH |].
    eapply existsb_key_false; [done |].
    apply in_map_iff. by exists (k, v).
Qed.

Lemma merge_step_result a k v :
  merge_stable v ->
  exists w, dict_lookup k (merge_step a (k, v)) = Some w /\ absorbed w v.
Proof.
  intros [Hself Hidem]. unfold merge_step, absorbed. simpl.
  destruct (dict_lookup k a) as [akey|] eqn:Hk.
  - destruct (is_dict akey && is_dict v) eqn:Hboth.
    + apply andb_prop in Hboth as [Ha Hv].
      exists (dict_merge_rec akey v). split; [apply dict_lookup_store_eq |].
      rewrite dict_merge_rec_is_dict by done. rewrite Hv. apply Hidem.
    + exists v. split; [apply dict_lookup_store_eq |].
      by destruct (is_dict v).
  - exists v. split; [apply dict_lookup_store_eq |].
    by destruct (is_dict v).
Qed.

Lemma fold_merge_absorbs (items : dict) :
  uniq (map fst items) = true ->
  Forall (fun kv => merge_stable kv.2) items ->
  forall a,
    Forall (fun kv => exists w,
                dict_lookup kv.1 (fold_left merge_step items a) = Some w /\
                absorbed w kv.2) items.
Proof.
  induction items as [|[k v] items IH]; simpl; intros Hu Hst a; [constructor |].
  apply andb_prop in Hu as [Hfresh Hu]. apply negb_true_iff in Hfresh.
  inversion Hst as [|? ? Hv Hrest]; subst. constructor.
  - simpl. rewrite fold_merge_lookup_fresh by done. by apply merge_step_result.
  - by apply IH.
Qed.

Lemma well_formed_merge_stable v : well_formed v = true -> merge_stable v.
Proof.
  induction v as [| | | | |l _|d IH] using pyval_ind; intros Hwf;
    try (split; [done | by intros []]).
  simpl in Hwf. apply andb_prop in Hwf as [Hu Hall].
  assert (Hst : Forall (fun kv => merge_stable kv.2) d).
  { rewrite Forall_forall in IH |- *. intros kv Hin. apply IH; [done |].
    rewrite forallb_forall in Hall. by apply Hall, list_elem_of_In. }
  assert (Hself : dict_merge_rec (VDict d) (VDict d) = VDict d).
  { rewrite dict_merge_rec_fold. f_equal. apply fold_merge_absorbed.
    rewrite Forall_forall in Hst |- *. intros [k v] Hin. exists v. split.
    - apply uniq_lookup; [done | by apply list_elem_of_In].
    - destruct (Hst _ Hin) as [Hv _]. unfold absorbed. simpl in *.
      by destruct (is_dict v). }
  split; [done |]. intros t.
  destruct (is_dict t) eqn:Ht.
  - destruct t as [| | | | | |da]; try done.
    rewrite !dict_merge_rec_fold. f_equal.
    apply fold_merge_absorbed. by apply fold_merge_absorbs.
  - by rewrite (dict_merge_rec_not_dict t).
Qed.

(** C5. Merge idempotence: for every tree [t] and every object payload [s],
    [dict_merge(t, s)] returns a tree [r], and merging [s] into [r] once more
    returns [r] again and leaves [r] as it is. *)
Theorem dict_merge_idempotent (t : pyval) (s : dict) :
  well_formed (VDict s) = true ->
  exists r,
    (dict_merge t (VDict s)).2 = Ret r /\
    dict_merge r (VDict s) = (r, Ret r).
Proof.
  intros Hwf. destruct (well_formed_merge_stable _ Hwf) as [Hself Hidem].
  exists (dict_merge_rec t (VDict s)). rewrite !dict_merge_dict, Hidem.
  split; [done |].
  destruct (is_dict (dict_merge_rec t (VDict s))); done.
Qed.

Lemma dict_merge_idempotent_witness :
  exists r,
    (dict_merge (VDict [(KStr "A", VDict [(KStr "value", VInt 7)])])
                (VDict [(KStr "A", VDict [(KStr "value", VInt 8)]);
                        (KStr "B", VStr "x")])).2 = Ret r /\
    dict_merge r (VDict [(KStr "A", VDict [(KStr "value", VInt 8)]);
                         (KStr "B", VStr "x")]) = (r, Ret r).
Proof. apply dict_merge_idempotent. reflexivity. Defined.

(** ** SET requests *)

Lemma fold_merge_lookup_in (db : dict) k sv :
  uniq (map fst db) = true ->
  dict_lookup k db = Some sv ->
  forall da,
    dict_lookup k (fold_left merge_step db da)
    = Some (match dict_lookup k da with
            | Some akey => if is_dict akey && is_dict sv
                           then dict_merge_rec akey sv else sv
            | None => sv
            end).
Proof.
  induction db as [|[j x] db IH]; simpl; [done |].
  intros Hu Hk da. apply andb_prop in Hu as [Hfresh Hu].
  apply negb_true_iff in Hfresh.
  destruct (key_eqb_spec j k) as [->|Hjk].
  - injection Hk as ->. rewrite fold_merge_lookup_fresh by done.
    unfold merge_step. simpl.
    destruct (dict_lookup k da) as [akey|];
      [destruct (is_dict akey && is_dict sv) |]; apply dict_lookup_store_eq.
  - rewrite IH by done. by rewrite merge_step_lookup_ne by (simpl; congruence).
Qed.

Lemma dict_merge_rec_leaf p :
  forall s t v,
    well_formed s = true -> is_dict s = true ->
    dict_get s p = Ret v -> is_dict v = false ->
    dict_get (dict_merge_rec t s) p = Ret v.
Proof.
  induction p as [|k p IH]; intros s t v Hwf Hs Hget Hv.
  - simpl in Hget. injection Hget as ->. congruence.
  - destruct s as [| | | | | |db]; try done.
    simpl in Hwf. apply andb_prop in Hwf as [Hu Hall].
    simpl in Hget. destruct (dict_lookup k db) as [sv|] eqn:Hk; [|done].
    destruct (is_dict t) eqn:Ht;
      [|rewrite dict_merge_rec_not_dict by done; simpl; by rewrite Hk].
    destruct t as [| | | | | |da]; try done.
    rewrite dict_merge_rec_fold. simpl.
    rewrite (fold_merge_lookup_in db k sv Hu Hk).
    destruct (dict_lookup k da) as [akey|]; [|done].
    destruct (is_dict akey && is_dict sv) eqn:Hboth; [|done].
    apply andb_prop in Hboth as [_ Hsv].
    apply IH; try done.
    rewrite forallb_forall in Hall.
    apply (Hall (k, sv)). by apply dict_lookup_in.
Qed.

(** [let_go] changes nothing but what [self._cur_obj] refers to. *)
Lemma let_go_spec replaced self :
  exists self',
    let_go replaced self = (Ret tt, self', []) /\
    peers self' = peers self /\
    name self' = name self /\
    capability self' = capability self /\
    _cur_obj self' = _cur_obj self /\
    _cur_obj_keys self' = _cur_obj_keys self /\
    _running self' = _running self.
Proof.
  unfold let_go, modify. eexists. split; [reflexivity |].
  destruct (_cur_obj_detached self); [done |].
  destruct (dict_get _ _); [|done].
  by destruct (replaced _).
Qed.

Lemma let_go_kept replaced self :
  replaced (_cur_obj self) = false -> let_go replaced self = (Ret tt, self, []).
Proof.
  intros H. unfold let_go, modify. rewrite H.
  destruct (_cur_obj_detached self); [done |]. by destruct (dict_get _ _).
Qed.

Lemma handle_SET_run data peer grp self :
  exists s0,
    (peers s0 = peers self /\ name s0 = name self /\ capability s0 = capability self /\
     _cur_obj s0 = _cur_obj self /\ _cur_obj_keys s0 = _cur_obj_keys self /\
     _running s0 = _running self) /\
    _handle_SET data peer grp self
    = match dict_merge (capability self) data with
      | (_, Ret merged) =>
          (Ret tt, with_capability s0 merged, [OnModified data (Some peer)])
      | (cap', Raise e) => (Raise e, with_capability s0 cap', [])
      end.
Proof.
  unfold _handle_SET.
  destruct (let_go_spec
              (fun p => if is_dict (capability self)
                        then dict_merge_replaces (capability self) data p else true) self)
    as (s0 & Hrun & Hs0).
  exists s0. split; [done |].
  unfold bind at 1, gets. cbn [fst snd]. unfold bind at 1. rewrite Hrun.
  by destruct (dict_merge (capability self) data) as [cap' [merged|e]].
Qed.

(** C1, counterexample: node [B] is registered with access ["r"]; the SET
    [{B: {value: "y"}}] changes [B.value] from ["x"] to ["y"]. *)
Lemma SET_honours_access_fails : ~ SET_honours_access read_only_B set_B_y 7%N.
Proof.
  intros H.
  specialize (H [KStr "B"] (VDict [(KStr "value", VStr "y")])
                (VDict [(KStr "value", VStr "x");
                        (KStr "typeHint", VStr "string");
                        (KStr "access", VStr "r")])).
  vm_compute in H. specialize (H ltac:(discriminate) eq_refl eq_refl eq_refl).
  discriminate H.
Qed.

(** C1, amended: [_handle_SET] never looks at [access].  For an object
    payload, every path of the payload that ends in a value other than an
    object holds that value in the capability tree after the SET, whatever
    the access string of the node written to; the handler returns and calls
    [on_modified] with the payload and the peer. *)
Theorem handle_SET_writes_every_leaf
    (self : ZOCP) (data : dict) (peer : N) (grp : option frame)
    (p : list key) (v : pyval) :
  well_formed (VDict data) = true ->
  dict_get (VDict data) p = Ret v ->
  is_dict v = false ->
  exists self',
    _handle_SET (VDict data) peer grp self
    = (Ret tt, self', [OnModified (VDict data) (Some peer)]) /\
    dict_get (capability self') p = Ret v /\
    peers self' = peers self.
Proof.
  intros Hwf Hget Hv.
  destruct (handle_SET_run (VDict data) peer grp self) as (s0 & Hs0 & ->).
  rewrite dict_merge_dict.
  eexists. split; [reflexivity |].
  cbn -[dict_merge_rec dict_get well_formed]. split; [|apply Hs0].
  by apply dict_merge_rec_leaf.
Qed.

Lemma handle_SET_writes_every_leaf_witness :
  exists self',
    _handle_SET set_B_y 7%N None read_only_B
    = (Ret tt, self', [OnModified set_B_y (Some 7%N)]) /\
    dict_get (capability self') [KStr "B"; KStr "value"] = Ret (VStr "y") /\
    peers self' = peers read_only_B.
Proof.
  apply (handle_SET_writes_every_leaf read_only_B
           [(KStr "B", VDict [(KStr "value", VStr "y")])] 7%N None
           [KStr "B"; KStr "value"] (VStr "y")); reflexivity.
Defined.

(** ** GET requests *)

(** C2, counterexample: the reply to [{GET: null}] carries the verb [MOD]. *)
Lemma GET_null_replies_REP_fails : ~ GET_null_replies_REP node_A 7%N.
Proof. unfold GET_null_replies_REP. vm_compute. discriminate. Qed.

(** C2, amended: for a GET whose payload is null (or empty), the handler
    whispers to the requester exactly one message, whose only key is [MOD] and
    whose payload is the full capability tree; the node is unchanged. *)
Theorem handle_GET_null_replies_MOD
    (self : ZOCP) (data : pyval) (peer : N) (grp : option frame) :
  truthy data = false ->
  _handle_GET data peer grp self
  = (Ret tt, self, [Whisper peer (VDict [(KStr "MOD", capability self)])]).
Proof. intros Hd. unfold _handle_GET. by rewrite Hd. Qed.

Lemma handle_GET_null_replies_MOD_witness :
  _handle_GET VNone 7%N None node_A
  = (Ret tt, node_A, [Whisper 7%N (VDict [(KStr "MOD", capability node_A)])]).
Proof. apply handle_GET_null_replies_MOD. reflexivity. Defined.

(** C3: a GET for the key list [["A"]] makes the handler whisper two
    messages to the requester, first [{SET: ["A"]}] and then the reply. *)
Theorem handle_GET_keys_whispers_SET :
  _handle_GET (VList [VStr "A"]) 7%N None node_A
  = (Ret tt, node_A,
     [Whisper 7%N (VDict [(KStr "SET", VList [VStr "A"])]);
      Whisper 7%N
        (VDict [(KStr "MOD",
                 VDict [(KStr "A", VDict [(KStr "value", VInt 7);
                                          (KStr "typeHint", VStr "int");
                                          (KStr "access", VStr "r")])])])]).
Proof. reflexivity. Qed.

(** ** Peer helpers *)

(** C6: [peer_unsubscribe] whispers a message whose verb key is [SUB], the
    very message [peer_subscribe] sends. *)
Theorem peer_unsubscribe_whispers_SUB
    (self : ZOCP) (peer : N) (signal sensor : pyval) :
  peer_unsubscribe peer signal sensor self
  = (Ret tt, self, [Whisper peer (VDict [(KStr "SUB", VList [signal; sensor])])]) /\
  peer_unsubscribe peer signal sensor self = peer_subscribe peer signal sensor self.
Proof. split; reflexivity. Qed.

(** ** REP and MOD *)

(** C8, counterexample: after REP [{A: 1}] from peer 7 the mirror of peer 7
    is still empty; after the same MOD it holds [A]. *)
Lemma REP_handled_like_MOD_fails :
  ~ REP_handled_like_MOD node_with_peer (VDict [(KStr "A", VInt 1)]) 7%N.
Proof.
  intros [Hpeers _].
  apply (f_equal (fun m : gmap N pyval => m !! 7%N)) in Hpeers.
  vm_compute in Hpeers. discriminate.
Qed.

(** C8, amended: a received message whose only verb is REP changes neither
    the peer registry nor the capability tree and calls no callback besides
    the transport one ([on_peer_whisper] or [on_peer_shout]); in particular
    [on_peer_replied] is not called. *)
Theorem REP_is_ignored
    (self : ZOCP) (peer : N) (data : pyval) (grp f : frame) (rest : list frame) :
  frame_json f = Some (VDict [(KStr "REP", data)]) ->
  get_message (Event "WHISPER" peer (f :: rest)) self
  = (Ret tt, self, [OnPeerWhisper peer (f :: rest)]) /\
  get_message (Event "SHOUT" peer (grp :: f :: rest)) self
  = (Ret tt, self, [OnPeerShout peer grp (f :: rest)]).
Proof.
  intros Hf. unfold get_message, decode_and_dispatch, bind, try_except.
  cbn. rewrite Hf. by cbn.
Qed.

Lemma REP_is_ignored_witness :
  let f := Frame "" (Some (VDict [(KStr "REP", VDict [(KStr "A", VInt 1)])])) in
  get_message (Event "WHISPER" 7%N [f]) node_with_peer
  = (Ret tt, node_with_peer, [OnPeerWhisper 7%N [f]]) /\
  get_message (Event "SHOUT" 7%N [Frame "ZOCP" None; f]) node_with_peer
  = (Ret tt, node_with_peer, [OnPeerShout 7%N (Frame "ZOCP" None) [f]]).
Proof.
  apply (REP_is_ignored node_with_peer 7%N (VDict [(KStr "A", VInt 1)])).
  reflexivity.
Defined.

(** ** Insertion scope *)

Example ZOCP_init_empty : ZOCP_init (VDict []) = Ret fresh_node.
Proof. reflexivity. Qed.

(** C9: on a fresh node, [set_object()] followed by
    [register_int("x", 1)] does not put [x] at the top level: the scope is
    the object named [None] under [objects], and [x] lands inside it. *)
Theorem set_object_None_scope :
  exists self' out,
    (set_object KNone (VStr "Unknown") ;;
     register_int (KStr "x") (VInt 1) (VStr "r") VNone VNone VNone) fresh_node
    = (Ret tt, self', out) /\
    capability self'
    = VDict [(KStr "objects",
              VDict [(KNone,
                      VDict [(KStr "type", VStr "Unknown");
                             (KStr "x", VDict [(KStr "value", VInt 1);
                                               (KStr "typeHint", VStr "int");
                                               (KStr "access", VStr "r")])])])] /\
    _cur_obj self' = [KStr "objects"; KNone] /\
    dict_get (capability self') [KStr "x"] = Raise KeyError.
Proof. do 2 eexists. split; [reflexivity |]. by repeat split. Qed.

(** An empty name is a name like any other: the scope is the object [""]. *)
Example set_object_empty_name_scope :
  exists self' out,
    set_object (KStr "") (VStr "Unknown") fresh_node = (Ret tt, self', out) /\
    capability self'
    = VDict [(KStr "objects", VDict [(KStr "", VDict [(KStr "type", VStr "Unknown")])])] /\
    _cur_obj self' = [KStr "objects"; KStr ""].
Proof. do 2 eexists. split; [reflexivity |]. by split. Qed.

(** ** Unknown verbs *)

(** C7, counterexample: the whisper [{"FOO": null}] makes [get_message]
    raise. *)
Lemma unknown_verb_dropped_fails :
  ~ unknown_verb_dropped node_A
      (Event "WHISPER" 7%N [Frame "" (Some (VDict [(KStr "FOO", VNone)]))]).
Proof. intros [Hret _]. vm_compute in Hret. discriminate. Qed.

Lemma handle_verb_unknown (verb : string) (data : pyval) (peer : N)
    (grp : option frame) (self : ZOCP) :
  known_verb verb = false ->
  handle_verb (VDict [(KStr verb, data)]) (KStr verb) peer grp self
  = (Raise (Exception (KStr verb)), self, []).
Proof.
  unfold known_verb. cbn [existsb]. intros H.
  repeat (apply orb_false_elim in H as [? H]).
  unfold handle_verb, bind, lift. cbn [py_getitem dict_lookup].
  rewrite key_eqb_refl. cbn [ret key_eqb].
  by repeat match goal with Heq : String.eqb verb _ = false |- _ =>
                    rewrite Heq; clear Heq end.
Qed.

(** C7, amended: a WHISPER or SHOUT whose JSON object has a single verb key
    outside GET, SET, CALL, SUB, UNSUB, REP, MOD and SIG makes [get_message]
    raise [Exception('No ... method on resource: ...')].  The node is as
    before and nothing is sent; only the transport callback has run. *)
Theorem unknown_verb_raises
    (self : ZOCP) (peer : N) (verb : string) (data : pyval)
    (grp f : frame) (rest : list frame) :
  known_verb verb = false ->
  frame_json f = Some (VDict [(KStr verb, data)]) ->
  get_message (Event "WHISPER" peer (f :: rest)) self
  = (Raise (Exception (KStr verb)), self, [OnPeerWhisper peer (f :: rest)]) /\
  get_message (Event "SHOUT" peer (grp :: f :: rest)) self
  = (Raise (Exception (KStr verb)), self, [OnPeerShout peer grp (f :: rest)]).
Proof.
  intros Hverb Hf.
  unfold get_message, decode_and_dispatch, bind, try_except.
  cbn -[handle_verb]. rewrite Hf. cbn -[handle_verb].
  unfold bind. by rewrite !handle_verb_unknown.
Qed.

Lemma unknown_verb_raises_witness :
  let f := Frame "" (Some (VDict [(KStr "FOO", VNone)])) in
  get_message (Event "WHISPER" 7%N [f]) node_A
  = (Raise (Exception (KStr "FOO")), node_A, [OnPeerWhisper 7%N [f]]) /\
  get_message (Event "SHOUT" 7%N [Frame "ZOCP" None; f]) node_A
  = (Raise (Exception (KStr "FOO")), node_A,
     [OnPeerShout 7%N (Frame "ZOCP" None) [f]]).
Proof.
  apply (unknown_verb_raises node_A 7%N "FOO" VNone); reflexivity.
Defined.

(** ** Events that are handled to completion *)

Lemma returns_bind {A B} (m : M A) (k : A -> M B) self
    (Q1 : A -> ZOCP -> Prop) (Q2 : B -> ZOCP -> Prop) :
  returns m self Q1 ->
  (forall x self', Q1 x self' -> returns (k x) self' Q2) ->
  returns (bind m k) self Q2.
Proof.
  intros (x & self' & out & Hm & HQ) Hk.
  destruct (Hk x self' HQ) as (y & self'' & out' & Hk' & HQ').
  exists y, self'', (out ++ out')%list. split; [|done].
  unfold bind. by rewrite Hm, Hk'.
Qed.

Lemma returns_ret {A} (x : A) self (Q : A -> ZOCP -> Prop) :
  Q x self -> returns (ret x) self Q.
Proof. intros HQ. by exists x, self, []. Qed.

Lemma returns_emit ev self (Q : unit -> ZOCP -> Prop) :
  Q tt self -> returns (emit ev) self Q.
Proof. intros HQ. by exists tt, self, [ev]. Qed.

Lemma returns_bind_gets {A B} (f : ZOCP -> A) (k : A -> M B) self Q :
  returns (k (f self)) self Q -> returns (bind (gets f) k) self Q.
Proof.
  intros H. eapply (returns_bind _ _ _ (fun x s => x = f self /\ s = self)).
  - by exists (f self), self, [].
  - by intros x s [-> ->].
Qed.

Lemma returns_bind_emit {B} ev (k : unit -> M B) self Q :
  returns (k tt) self Q -> returns (bind (emit ev) k) self Q.
Proof.
  intros H. eapply (returns_bind _ _ _ (fun _ s => s = self)).
  - by exists tt, self, [ev].
  - by intros [] s ->.
Qed.

Lemma returns_bind_modify {B} (f : ZOCP -> ZOCP) (k : unit -> M B) self Q :
  returns (k tt) (f self) Q -> returns (bind (modify f) k) self Q.
Proof.
  intros H. eapply (returns_bind _ _ _ (fun _ s => s = f self)).
  - by exists tt, (f self), [].
  - by intros [] s ->.
Qed.

Lemma returns_bind_ret {A B} (x : A) (k : A -> M B) self Q :
  returns (k x) self Q -> returns (bind (ret x) k) self Q.
Proof.
  intros H. eapply (returns_bind _ _ _ (fun y s => y = x /\ s = self)).
  - by exists x, self, [].
  - by intros y s [-> ->].
Qed.

Lemma collect_items_pure items :
  forallb hashable items = true ->
  forall acc self,
    is_dict (capability self) = true ->
    exists ret_, collect_items items acc self = (Ret ret_, self, []).
Proof.
  induction items as [|item items IH]; intros Hall acc self Hcap.
  - by exists acc.
  - simpl in Hall. apply andb_prop in Hall as [Hitem Hall].
    cbn [collect_items]. unfold bind, gets. unfold hashable in Hitem.
    destruct (capability self) as [| | | | | |d] eqn:Hc; try done.
    destruct (as_key item) as [k|]; [|done].
    destruct (IH Hall
                (dict_store k match dict_lookup k d with Some v => v | None => VNone end acc)
                self) as [ret_ Hrun]; [by rewrite Hc |].
    exists ret_. by rewrite Hrun.
Qed.

Lemma collect_items_returns items :
  forallb hashable items = true ->
  forall acc self,
    is_dict (capability self) = true ->
    returns (collect_items items acc) self capability_is_dict.
Proof.
  intros Hall acc self Hcap.
  destruct (collect_items_pure items Hall acc self Hcap) as [ret_ Hrun].
  by exists ret_, self, [].
Qed.

(** Whatever keys are asked for, the requester is sent a SET with the
    request itself before the reply. *)
Lemma handle_GET_keys_effects data items peer grp self :
  truthy data = true ->
  py_iter data = Ret items ->
  forallb hashable items = true ->
  is_dict (capability self) = true ->
  exists ret_,
    _handle_GET data peer grp self
    = (Ret tt, self,
       [Whisper peer (VDict [(KStr "SET", data)]);
        Whisper peer (VDict [(KStr "MOD", VDict ret_)])]).
Proof.
  intros Hd Hiter Hall Hcap.
  destruct (collect_items_pure items Hall [] self Hcap) as [ret_ Hrun].
  exists ret_. unfold _handle_GET. rewrite Hd, Hiter. cbn [negb lift].
  unfold bind at 1. cbn [ret]. unfold bind at 1. by rewrite Hrun.
Qed.

Lemma handle_GET_returns data peer grp self :
  GET_payload_ok data = true ->
  is_dict (capability self) = true ->
  returns (_handle_GET data peer grp) self capability_is_dict.
Proof.
  intros Hok Hcap. unfold _handle_GET, GET_payload_ok in *.
  destruct (truthy data); simpl in *.
  - destruct (py_iter data) as [items|]; [|done]. cbn [lift].
    apply returns_bind_ret.
    eapply returns_bind; [by apply collect_items_returns |].
    intros ret_ self' Hcap'. unfold peer_set, whisper.
    apply returns_bind_emit. by apply returns_emit.
  - unfold get_capability, whisper. apply returns_bind_gets. by apply returns_emit.
Qed.

Lemma handle_SET_returns data peer grp self :
  is_dict data = true ->
  returns (_handle_SET data peer grp) self capability_is_dict.
Proof.
  intros Hd. destruct data as [| | | | | |db]; try done.
  unfold _handle_SET. apply returns_bind_gets. rewrite dict_merge_dict.
  unfold set_capability_attr, on_modified.
  apply returns_bind_modify, returns_emit.
  unfold capability_is_dict. cbn [capability].
  destruct (is_dict (capability self)) eqn:Hc.
  - by apply dict_merge_rec_is_dict.
  - by rewrite dict_merge_rec_not_dict.
Qed.

Lemma handle_MOD_returns data peer grp self :
  is_dict data = true ->
  is_dict (capability self) = true ->
  returns (_handle_MOD data peer grp) self capability_is_dict.
Proof.
  intros Hd Hcap. destruct data as [| | | | | |db]; try done.
  unfold _handle_MOD. apply returns_bind_gets. rewrite dict_merge_dict.
  unfold set_peers, on_peer_modified.
  apply returns_bind_modify, returns_emit. done.
Qed.

Lemma handle_verb_returns msg method data peer grp self :
  py_getitem msg method = Ret data ->
  verb_ok method data = true ->
  is_dict (capability self) = true ->
  returns (handle_verb msg method peer grp) self capability_is_dict.
Proof.
  intros Hget Hok Hcap. unfold handle_verb. rewrite Hget. cbn [lift].
  apply returns_bind_ret. unfold verb_ok in Hok.
  repeat match goal with
         | |- context [if key_eqb method ?k then _ else _] =>
             destruct (key_eqb method k)
         end;
    try done;
    first [ by apply handle_GET_returns
          | by apply handle_SET_returns
          | by apply handle_MOD_returns
          | by apply returns_ret ].
Qed.

Lemma handle_verbs_returns (items : dict) peer grp methods :
  forallb (fun kv => verb_ok kv.1 kv.2) items = true ->
  incl methods (map fst items) ->
  forall self,
    is_dict (capability self) = true ->
    returns (handle_verbs (VDict items) methods peer grp) self capability_is_dict.
Proof.
  intros Hall. induction methods as [|method methods IH]; intros Hincl self Hcap.
  - by apply returns_ret.
  - cbn [handle_verbs].
    destruct (dict_lookup_key_in method items) as [data Hdata];
      [apply Hincl; by left |].
    eapply returns_bind.
    + apply (handle_verb_returns _ _ data); [by simpl; rewrite Hdata | | done].
      rewrite forallb_forall in Hall.
      apply (Hall (method, data)). by apply dict_lookup_in.
    + intros [] self' Hcap'. apply IH; [|done].
      intros m Hm. apply Hincl. by right.
Qed.

Lemma decode_and_dispatch_returns msg peer grp self :
  payload_ok msg = true ->
  is_dict (capability self) = true ->
  returns (decode_and_dispatch msg peer grp) self capability_is_dict.
Proof.
  intros Hok Hcap. unfold decode_and_dispatch, payload_ok in *.
  destruct msg as [|f msg].
  - eapply (returns_bind _ _ _ (fun x s => x = None /\ s = self)).
    + by exists None, self, [PrintError].
    + intros x s [-> ->]. by apply returns_ret.
  - destruct (frame_json f) as [v|] eqn:Hf.
    + eapply (returns_bind _ _ _ (fun x s => x = Some v /\ s = self)).
      * exists (Some v), self, []. split; [|done].
        unfold try_except, bind, pop0. cbn. by rewrite Hf.
      * intros x s [-> ->]. destruct v as [| | | | | |items]; try done.
        apply handle_verbs_returns; [done | apply incl_refl | done].
    + eapply (returns_bind _ _ _ (fun x s => x = None /\ s = self)).
      * exists None, self, [PrintError]. split; [|done].
        unfold try_except, bind, pop0. cbn. by rewrite Hf.
      * intros x s [-> ->]. by apply returns_ret.
Qed.

(** C4, counterexample: a SHOUT in group ZOCP carrying [{"PING": 1}] makes
    [get_message] raise into the event loop. *)
Lemma handler_returns_fails :
  ~ handler_returns node_A
      (Event "SHOUT" 7%N
         [Frame "ZOCP" None; Frame "" (Some (VDict [(KStr "PING", VInt 1)]))]).
Proof. unfold handler_returns. vm_compute. discriminate. Qed.

Lemma handle_verb_other msg method peer grp self :
  other_verb method = true ->
  exists e self' out, handle_verb msg method peer grp self = (Raise e, self', out).
Proof.
  intros Hother. unfold handle_verb, bind.
  destruct (py_getitem msg method) as [data|e]; cbn [lift ret raise]; [|by do 3 eexists].
  assert (Hrest : forall m : M unit,
             (if key_eqb method (KStr "GET") then m
              else if key_eqb method (KStr "SET") then m
              else if key_eqb method (KStr "CALL") then m
              else if key_eqb method (KStr "SUB") then m
              else if key_eqb method (KStr "UNSUB") then m
              else if key_eqb method (KStr "REP") then m
              else if key_eqb method (KStr "MOD") then m
              else if key_eqb method (KStr "SIG") then m
              else handle_other method data) = handle_other method data).
  { intros m. destruct method as [|verb| |]; try done.
    unfold other_verb, known_verb in Hother. cbn [existsb] in Hother.
    apply negb_true_iff in Hother.
    repeat (apply orb_false_elim in Hother as [? Hother]).
    cbn [key_eqb].
    by repeat match goal with Heq : String.eqb verb _ = false |- _ =>
                      rewrite Heq; clear Heq end. }
  exists (Exception method), self, [].
  repeat match goal with
         | |- context [if key_eqb method ?k then ?m else _] =>
             destruct (key_eqb method k) eqn:?;
             [exfalso;
              destruct method as [|verb| |]; try done;
              unfold other_verb, known_verb in Hother; cbn [existsb] in Hother;
              apply negb_true_iff in Hother;
              repeat (apply orb_false_elim in Hother as [? Hother]);
              cbn [key_eqb] in *; congruence |]
         end.
  unfold handle_other, try_except. by destruct method.
Qed.

Lemma handle_verbs_other msg methods peer grp :
  existsb other_verb methods = true ->
  forall self,
    exists e self' out, handle_verbs msg methods peer grp self = (Raise e, self', out).
Proof.
  induction methods as [|method methods IH]; [done |].
  intros Hex self. cbn [handle_verbs]. unfold bind.
  destruct (handle_verb msg method peer grp self) as [[[[]|e] s1] out1] eqn:Hverb;
    [|by do 3 eexists].
  cbn [existsb] in Hex. destruct (other_verb method) eqn:Hother.
  - destruct (handle_verb_other msg method peer grp self Hother) as (e & s & o & Hraise).
    congruence.
  - destruct (IH Hex s1) as (e & s2 & out2 & ->). by do 3 eexists.
Qed.

Lemma decode_and_dispatch_other msg peer grp self :
  payload_has_other_verb msg = true ->
  exists e self' out, decode_and_dispatch msg peer grp self = (Raise e, self', out).
Proof.
  unfold payload_has_other_verb. destruct msg as [|f msg]; [done |].
  destruct (frame_json f) as [[| | | | | |items]|] eqn:Hf; try done.
  intros Hex. unfold decode_and_dispatch, bind, try_except, pop0. cbn. rewrite Hf. cbn.
  destruct (handle_verbs_other (VDict items) (map fst items) peer grp Hex self)
    as (e & s & out & ->).
  by do 3 eexists.
Qed.

(** C4, amended: on a node whose capability is a dict, [get_message] runs to
    completion without raising for every ENTER event, every EXIT event of a
    registered peer, every JOIN and LEAVE event that has its group frame,
    every event of another type, and every SHOUT that has its group frame
    and every WHISPER whose payload frame is missing, is not JSON, or is a
    JSON object whose verbs are all among GET, SET, CALL, SUB, UNSUB, REP, MOD
    and SIG, with an object as SET or MOD payload and null or an iterable of
    keys as GET payload; the capability is a dict afterwards as well.  A
    SHOUT that has its group frame or a WHISPER whose payload is a JSON
    object with any other verb key raises an exception out of [get_message],
    and a JOIN, LEAVE or SHOUT event without a group frame raises
    [IndexError]. *)
Theorem get_message_returns (self : ZOCP) (ev : event) :
  is_dict (capability self) = true ->
  (event_ok self ev = true ->
   exists self' out,
     get_message ev self = (Ret tt, self', out) /\
     is_dict (capability self') = true) /\
  (carries_other_verb ev = true ->
   exists e self' out, get_message ev self = (Raise e, self', out)) /\
  (In (ev_type ev) ["JOIN"; "LEAVE"; "SHOUT"] -> ev_frames ev = [] ->
   get_message ev self = (Raise IndexError, self, [])).
Proof.
  intros Hcap. split; [|split].
  2: { unfold carries_other_verb, get_message. intros Hother.
       destruct ev as [type peer frames]. cbn [ev_type ev_peer ev_frames] in *.
       destruct (String.eqb_spec type "SHOUT") as [->|Hshout].
       - destruct frames as [|grp msg]; [done |].
         destruct (decode_and_dispatch_other msg peer (Some grp) self Hother)
           as (e & s & out & Hraise).
         unfold bind, on_peer_shout, emit. cbn -[decode_and_dispatch].
         rewrite Hraise. by do 3 eexists.
       - destruct (String.eqb_spec type "WHISPER") as [->|]; [|done].
         destruct (decode_and_dispatch_other frames peer None self Hother)
           as (e & s & out & Hraise).
         unfold bind, on_peer_whisper, emit. cbn -[decode_and_dispatch].
         rewrite Hraise. by do 3 eexists. }
  2: { intros Hin Hnil. unfold get_message. rewrite Hnil.
       cbn [In] in Hin. by destruct Hin as [<-|[<-|[<-|[]]]]. }
  intros Hok.
  cut (returns (get_message ev) self capability_is_dict).
  { intros ([] & self' & out & Hrun & Hcap'). by exists self', out. }
  unfold get_message, event_ok in *.
  destruct (String.eqb (ev_type ev) "ENTER").
  { apply returns_bind_gets.
    eapply (returns_bind _ _ _ capability_is_dict).
    - destruct (negb _).
      + unfold set_peers. exists tt. by do 2 eexists.
      + by apply returns_ret.
    - intros [] s Hs. unfold peer_get_capability, peer_get, whisper, on_peer_enter.
      apply returns_bind_emit. by apply returns_emit. }
  destruct (String.eqb (ev_type ev) "EXIT").
  { unfold on_peer_exit. apply returns_bind_emit, returns_bind_gets.
    apply bool_decide_eq_true in Hok as [mirror Hmirror]. rewrite Hmirror.
    unfold set_peers. exists tt. by do 2 eexists. }
  destruct (String.eqb (ev_type ev) "JOIN").
  { destruct (ev_frames ev) as [|grp msg]; [done |].
    apply returns_bind_ret. by apply returns_emit. }
  destruct (String.eqb (ev_type ev) "LEAVE").
  { destruct (ev_frames ev) as [|grp msg]; [done |].
    apply returns_bind_ret. by apply returns_emit. }
  destruct (String.eqb (ev_type ev) "SHOUT").
  { destruct (ev_frames ev) as [|grp msg]; [done |].
    apply returns_bind_ret. unfold on_peer_shout. apply returns_bind_emit.
    by apply decode_and_dispatch_returns. }
  destruct (String.eqb (ev_type ev) "WHISPER").
  { unfold on_peer_whisper. apply returns_bind_emit.
    by apply decode_and_dispatch_returns. }
  by apply returns_ret.
Qed.

Lemma get_message_returns_witness :
  (exists self' out,
     get_message
       (Event "WHISPER" 7%N
          [Frame "" (Some (VDict [(KStr "SET", set_B_y); (KStr "GET", VNone)]))])
       read_only_B
     = (Ret tt, self', out) /\
     is_dict (capability self') = true) /\
  (exists e self' out,
     get_message
       (Event "SHOUT" 7%N
          [Frame "ZOCP" None;
           Frame "" (Some (VDict [(KStr "GET", VNone); (KStr "PING", VInt 1)]))])
       read_only_B
     = (Raise e, self', out)) /\
  get_message (Event "JOIN" 7%N []) read_only_B = (Raise IndexError, read_only_B, []).
Proof.
  split; [|split].
  - apply (get_message_returns read_only_B
             (Event "WHISPER" 7%N
                [Frame "" (Some (VDict [(KStr "SET", set_B_y); (KStr "GET", VNone)]))]));
      reflexivity.
  - apply (get_message_returns read_only_B
             (Event "SHOUT" 7%N
                [Frame "ZOCP" None;
                 Frame "" (Some (VDict [(KStr "GET", VNone); (KStr "PING", VInt 1)]))]));
      reflexivity.
  - apply (get_message_returns read_only_B (Event "JOIN" 7%N []));
      [reflexivity | simpl; auto | reflexivity].
Defined.

(** An EXIT event from a peer that was never registered: [self.peers.pop(peer)]
    raises [KeyError] after the callback has run. *)
Example exit_of_unknown_peer :
  get_message (Event "EXIT" 7%N []) node_A = (Raise KeyError, node_A, [OnPeerExit 7%N []]).
Proof. reflexivity. Qed.

(** ** Registering attributes *)

Lemma dict_store_store k v w d : dict_store k v (dict_store k w d) = dict_store k v d.
Proof.
  induction d as [|[j x] d IH]; simpl.
  - by rewrite key_eqb_refl.
  - destruct (key_eqb j k) eqn:E; simpl; rewrite E; [done | by rewrite IH].
Qed.

Lemma dict_get_app d p q :
  dict_get d (p ++ q)
  = match dict_get d p with Ret o => dict_get o q | Raise e => Raise e end.
Proof.
  revert d. induction p as [|k p IH]; intros d; simpl; [done |].
  destruct (py_getitem d k); [apply IH | done].
Qed.

Lemma py_getitem_str s k v : py_getitem (VStr s) k = Ret v -> exists s', v = VStr s'.
Proof.
  simpl. destruct k; try done.
  destruct (seq_index _ _); [|done]. intros [= <-]. by eexists.
Qed.

Lemma dict_get_str p : forall s v, dict_get (VStr s) p = Ret v -> exists s', v = VStr s'.
Proof.
  induction p as [|k p IH]; intros s v.
  - intros [= <-]. by eexists.
  - cbn [dict_get]. destruct (py_getitem (VStr s) k) as [sub|] eqn:Hk; [|done].
    apply py_getitem_str in Hk as [s' ->]. apply IH.
Qed.

Lemma seq_index_insert_pos {A} (l : list A) i y :
  (0 <=? i) && (i <? Z.of_nat (length l)) = true ->
  seq_index (<[Z.to_nat i := y]> l) i = Some y.
Proof.
  intros H. unfold seq_index. rewrite length_insert, H.
  apply list_lookup_insert_eq.
  apply andb_prop in H as [H0 Hn]. lia.
Qed.

Lemma seq_index_insert_neg {A} (l : list A) i y :
  (0 <=? i) && (i <? Z.of_nat (length l)) = false ->
  (- Z.of_nat (length l) <=? i) && (i <? 0) = true ->
  seq_index (<[Z.to_nat (Z.of_nat (length l) + i) := y]> l) i = Some y.
Proof.
  intros Hpos Hneg. unfold seq_index. rewrite length_insert, Hpos, Hneg.
  apply list_lookup_insert_eq.
  apply andb_prop in Hneg as [H0 Hn]. lia.
Qed.

Lemma py_setitem_getitem d k sub sub' :
  py_getitem d k = Ret sub ->
  (forall s, d <> VStr s) ->
  exists d', py_setitem d k sub' = Ret d' /\ py_getitem d' k = Ret sub'.
Proof.
  destruct d as [| | | |s|l|items]; try done.
  - intros _ Hs. by destruct (Hs s).
  - simpl. destruct k as [| |i|]; try done.
    destruct (seq_index l i) as [x|] eqn:Hx; [|done]. intros _ _.
    unfold seq_index in Hx.
    destruct ((0 <=? i) && (i <? Z.of_nat (length l))) eqn:Hpos.
    + eexists. split; [done |]. simpl. by rewrite seq_index_insert_pos.
    + destruct ((- Z.of_nat (length l) <=? i) && (i <? 0)) eqn:Hneg; [|done].
      eexists. split; [done |]. simpl. by rewrite seq_index_insert_neg.
  - intros _ _. simpl. eexists. split; [done |]. simpl.
    by rewrite dict_lookup_store_eq.
Qed.

(** A store below an object reached by [p] is a store in the root, and the
    object reached by [p] afterwards is the updated one. *)
Lemma dict_set_app p :
  forall d q v o o',
    dict_get d p = Ret o ->
    (forall s, o <> VStr s) ->
    q <> [] ->
    dict_set o q v = Ret o' ->
    exists d', dict_set d (p ++ q) v = Ret d' /\ dict_get d' p = Ret o'.
Proof.
  induction p as [|k p IH]; intros d q v o o' Hget Ho Hq Hset.
  - injection Hget as ->. by exists o'.
  - cbn [dict_get] in Hget.
    destruct (py_getitem d k) as [sub|] eqn:Hk; [|done].
    destruct (IH sub q v o o' Hget Ho Hq Hset) as (sub' & Hsub' & Hget').
    assert (Hd : forall s, d <> VStr s).
    { intros s ->. apply py_getitem_str in Hk as [s' ->].
      apply dict_get_str in Hget as [s'' ->]. by eapply Ho. }
    destruct (py_setitem_getitem d k sub sub' Hk Hd) as (d' & Hd' & Hk').
    exists d'. split.
    + change ((k :: p) ++ q)%list with (k :: (p ++ q))%list.
      destruct (p ++ q)%list as [|k' rest] eqn:Hpq.
      { apply app_eq_nil in Hpq as [_ ->]. done. }
      cbn [dict_set]. cbn [dict_set] in Hsub'. by rewrite Hk, Hsub'.
    + cbn [dict_get]. by rewrite Hk'.
Qed.

Lemma same_node_refl self : same_node self self.
Proof. unfold same_node. by destruct (_cur_obj_detached self). Qed.

Lemma cur_obj_item_app self sub :
  cur_obj_item self sub
  = match cur_obj_item self [] with Ret o => dict_get o sub | Raise e => Raise e end.
Proof.
  unfold cur_obj_item. destruct (_cur_obj_detached self); [done |].
  by rewrite app_nil_r, dict_get_app.
Qed.

(** A store through [self._cur_obj] is a store into the object it refers
    to: into the tree while the object is part of it, and past the tree
    afterwards. *)
Lemma cur_obj_store_spec self sub v o o' :
  cur_obj_item self [] = Ret o ->
  (forall s, o <> VStr s) ->
  sub <> [] ->
  dict_set o sub v = Ret o' ->
  exists self',
    cur_obj_store sub v self = (Ret tt, self', []) /\
    cur_obj_item self' [] = Ret o' /\
    same_node self self'.
Proof.
  unfold cur_obj_item, cur_obj_store, same_node, bind, gets.
  intros Hget Ho Hsub Hset. cbn [fst snd].
  destruct (_cur_obj_detached self) as [od|] eqn:Hd.
  - cbn [dict_get] in Hget. injection Hget as ->. rewrite Hset. cbn [lift ret].
    eexists. split; [reflexivity |]. by cbn.
  - rewrite app_nil_r in Hget.
    destruct (dict_set_app _ _ _ _ _ _ Hget Ho Hsub Hset) as (cap' & Hcap' & Hget').
    rewrite Hcap'. cbn [lift ret].
    eexists. split; [reflexivity |]. cbn. rewrite Hd, app_nil_r. done.
Qed.

Lemma same_node_trans s1 s2 s3 : same_node s1 s2 -> same_node s2 s3 -> same_node s1 s3.
Proof.
  unfold same_node.
  intros (-> & -> & -> & -> & -> & H12) (-> & -> & -> & -> & -> & H23).
  repeat split; try done.
  destruct (_cur_obj_detached s1).
  - destruct H12 as [Hd <-]. destruct (_cur_obj_detached s2); [done | by destruct Hd].
  - by rewrite H12 in H23.
Qed.

Lemma cur_obj_store_returns self0 self sub v o o' :
  cur_obj_item self [] = Ret o ->
  same_node self0 self ->
  (forall s, o <> VStr s) ->
  sub <> [] ->
  dict_set o sub v = Ret o' ->
  returns (cur_obj_store sub v) self (scope_holds self0 o').
Proof.
  intros Hget Hsame Ho Hsub Hset.
  destruct (cur_obj_store_spec self sub v o o' Hget Ho Hsub Hset) as (self' & Hrun & Hget' & H').
  exists tt, self', []. split; [done |]. split; [done |].
  by apply (same_node_trans _ self).
Qed.

Lemma store_bound_returns self0 self name (node d : dict) (bound : string) (b : pyval) :
  scope_holds self0 (VDict (dict_store name (VDict node) d)) tt self ->
  returns (if truthy b then cur_obj_store [name; KStr bound] b else ret tt) self
    (scope_holds self0
       (VDict (dict_store name
                 (VDict (if truthy b then dict_store (KStr bound) b node else node)) d))).
Proof.
  intros (Hget & Hsame). destruct (truthy b).
  - eapply cur_obj_store_returns; try done.
    cbn [dict_set py_getitem]. rewrite dict_lookup_store_eq.
    cbn [py_setitem]. by rewrite dict_store_store.
  - by apply returns_ret.
Qed.

Lemma on_modified_returns data peer self :
  returns (_on_modified data peer) self (fun _ self' => self' = self).
Proof.
  unfold _on_modified. apply returns_bind_gets.
  unfold on_modified. apply returns_bind_emit, returns_bind_gets.
  destruct (_running self).
  - apply returns_bind_gets. by apply returns_emit.
  - by apply returns_ret.
Qed.

Lemma cur_obj_load_returns self sub v :
  cur_obj_item self sub = Ret v ->
  returns (cur_obj_load sub) self (fun x self' => x = v /\ self' = self).
Proof.
  intros Hget. unfold cur_obj_load. apply returns_bind_gets.
  unfold id. rewrite Hget. by apply returns_ret.
Qed.

Lemma register_bounded_returns hint name value access min max step self d :
  cur_obj_item self [] = Ret (VDict d) ->
  returns (register_bounded hint name value access min max step) self
    (scope_holds self
       (VDict (dict_store name (VDict (attribute_node hint value access min max step)) d))).
Proof.
  intros Hscope. unfold register_bounded.
  eapply returns_bind.
  { apply (cur_obj_store_returns self self [name] _ (VDict d)); try done.
    apply same_node_refl. }
  intros [] s1 H1. eapply returns_bind; [by apply store_bound_returns |].
  intros [] s2 H2. eapply returns_bind; [by apply store_bound_returns |].
  intros [] s3 H3. eapply returns_bind; [by apply store_bound_returns |].
  intros [] s4 H4. destruct H4 as (Hget & Hsame).
  eapply returns_bind.
  { apply cur_obj_load_returns. rewrite cur_obj_item_app, Hget.
    cbn [dict_get py_getitem]. by rewrite dict_lookup_store_eq. }
  intros node s5 [-> ->].
  destruct (on_modified_returns
              (VDict [(KStr "name",
                       VDict (attribute_node hint value access min max step))])
              None s4) as ([] & s5 & out & Hrun & ->).
  exists tt, s4, out. split; [exact Hrun |]. done.
Qed.

Lemma equals_zero_falsy v : equals_zero v = true -> truthy v = false.
Proof.
  destruct v as [|b|z|f| | |]; simpl; try done.
  - by destruct b.
  - by intros ->.
  - by destruct f.
Qed.

Lemma attribute_node_bounds hint value access min max step :
  let node := attribute_node hint value access min max step in
  dict_lookup (KStr "min") node = (if truthy min then Some min else None) /\
  dict_lookup (KStr "max") node = (if truthy max then Some max else None) /\
  dict_lookup (KStr "step") node = (if truthy step then Some step else None).
Proof.
  unfold attribute_node.
  by destruct (truthy min), (truthy max), (truthy step).
Qed.

(** C10: when [self._cur_obj] refers to a dict, [register_int],
    [register_float] and [register_percent] return, and the attribute node
    they leave under [name] in that dict has no ['min'] key when [min] equals
    0, no ['max'] key when [max] equals 0 and no ['step'] key when [step]
    equals 0: each bound is stored exactly when it is truthy.  While the dict
    is part of the capability tree the node is found in the tree, under the
    path of the scope. *)
Theorem register_drops_zero_bounds
    (reg : key -> pyval -> pyval -> pyval -> pyval -> pyval -> M unit)
    (self : ZOCP) (name : key) (value access min max step : pyval) (scope : dict) :
  In reg [register_int; register_float; register_percent] ->
  cur_obj_item self [] = Ret (VDict scope) ->
  exists self' out node,
    reg name value access min max step self = (Ret tt, self', out) /\
    cur_obj_item self' [name] = Ret (VDict node) /\
    (_cur_obj_detached self = None ->
     dict_get (capability self') (_cur_obj self' ++ [name]) = Ret (VDict node)) /\
    (equals_zero min = true -> dict_mem (KStr "min") node = false) /\
    (equals_zero max = true -> dict_mem (KStr "max") node = false) /\
    (equals_zero step = true -> dict_mem (KStr "step") node = false) /\
    dict_lookup (KStr "min") node = (if truthy min then Some min else None) /\
    dict_lookup (KStr "max") node = (if truthy max then Some max else None) /\
    dict_lookup (KStr "step") node = (if truthy step then Some step else None).
Proof.
  intros Hreg Hscope.
  assert (exists hint, reg = register_bounded hint) as [hint ->].
  { simpl in Hreg. destruct Hreg as [<-|[<-|[<-|[]]]]; by eexists. }
  destruct (register_bounded_returns hint name value access min max step self scope Hscope)
    as ([] & self' & out & Hrun & Hget & Hsame).
  destruct (attribute_node_bounds hint value access min max step)
    as (Hmin & Hmax & Hstep).
  exists self', out, (attribute_node hint value access min max step).
  split; [done |].
  assert (Hnode : cur_obj_item self' [name]
                  = Ret (VDict (attribute_node hint value access min max step))).
  { rewrite cur_obj_item_app, Hget. cbn [dict_get py_getitem].
    by rewrite dict_lookup_store_eq. }
  split; [done |]. split.
  { intros Hd. destruct Hsame as (_ & _ & _ & _ & _ & Hd'). rewrite Hd in Hd'.
    unfold cur_obj_item in Hnode. by rewrite Hd' in Hnode. }
  unfold dict_mem. rewrite Hmin, Hmax, Hstep.
  repeat split; try done; intros Hz; by rewrite (equals_zero_falsy _ Hz).
Qed.

Lemma register_drops_zero_bounds_witness :
  exists self' out node,
    register_float (KStr "zocpFloat") (VInt 2) (VStr "rw")
      (VInt 0) (VInt 5) (VFloat (S754_zero false)) fresh_node
    = (Ret tt, self', out) /\
    cur_obj_item self' [KStr "zocpFloat"] = Ret (VDict node) /\
    (_cur_obj_detached fresh_node = None ->
     dict_get (capability self') (_cur_obj self' ++ [KStr "zocpFloat"]) = Ret (VDict node)) /\
    (equals_zero (VInt 0) = true -> dict_mem (KStr "min") node = false) /\
    (equals_zero (VInt 5) = true -> dict_mem (KStr "max") node = false) /\
    (equals_zero (VFloat (S754_zero false)) = true -> dict_mem (KStr "step") node = false) /\
    dict_lookup (KStr "min") node = (if truthy (VInt 0) then Some (VInt 0) else None) /\
    dict_lookup (KStr "max") node = (if truthy (VInt 5) then Some (VInt 5) else None) /\
    dict_lookup (KStr "step") node
    = (if truthy (VFloat (S754_zero false)) then Some (VFloat (S754_zero false)) else None).
Proof.
  apply (register_drops_zero_bounds register_float fresh_node (KStr "zocpFloat")
           (VInt 2) (VStr "rw") (VInt 0) (VInt 5) (VFloat (S754_zero false)) []).
  - simpl. auto.
  - reflexivity.
Defined.

(** * Further properties *)

(** ** [dict_merge] *)

Lemma dict_lookup_none_fresh k (d : dict) :
  dict_lookup k d = None -> existsb (key_eqb k) (map fst d) = false.
Proof.
  induction d as [|[j w] d IH]; simpl; [done |].
  destruct (key_eqb_spec j k) as [->|Hjk]; [done |].
  intros H. rewrite IH by done. rewrite key_eqb_neq; [done | congruence].
Qed.

Lemma dict_store_fresh k v (d : dict) :
  dict_lookup k d = None -> dict_store k v d = (d ++ [(k, v)])%list.
Proof.
  induction d as [|[j w] d IH]; simpl; [done |].
  destruct (key_eqb j k); [done |]. intros H. by rewrite IH.
Qed.

Lemma dict_store_keys k v (d : dict) :
  map fst (dict_store k v d)
  = match dict_lookup k d with
    | Some _ => map fst d
    | None => (map fst d ++ [k])%list
    end.
Proof.
  induction d as [|[j w] d IH]; simpl; [done |].
  destruct (key_eqb j k); simpl; [done |].
  rewrite IH. by destruct (dict_lookup k d).
Qed.

Lemma uniq_snoc ks k :
  uniq ks = true -> existsb (key_eqb k) ks = false -> uniq (ks ++ [k]) = true.
Proof.
  induction ks as [|j ks IH]; simpl; [done |].
  intros Hu Hk. apply andb_prop in Hu as [Hj Hu].
  apply orb_false_elim in Hk as [Hkj Hk].
  rewrite IH by done. rewrite andb_true_r.
  rewrite existsb_app. simpl. apply negb_true_iff in Hj. rewrite Hj. simpl.
  rewrite orb_false_r. apply negb_true_iff.
  destruct (key_eqb_spec j k) as [->|]; [by rewrite key_eqb_refl in Hkj | done].
Qed.

Lemma dict_store_uniq k v (d : dict) :
  uniq (map fst d) = true -> uniq (map fst (dict_store k v d)) = true.
Proof.
  intros Hu. rewrite dict_store_keys.
  destruct (dict_lookup k d) eqn:Hk; [done |].
  apply uniq_snoc; [done | by apply dict_lookup_none_fresh].
Qed.

Lemma dict_store_values k v (d : dict) (P : pyval -> bool) :
  forallb (fun kv => P kv.2) d = true -> P v = true ->
  forallb (fun kv => P kv.2) (dict_store k v d) = true.
Proof.
  intros Hd Hv. induction d as [|[j w] d IH]; simpl in *; [by rewrite Hv |].
  apply andb_prop in Hd as [Hw Hd].
  destruct (key_eqb j k); simpl; [by rewrite Hv, Hd | by rewrite Hw, IH].
Qed.

Lemma dict_store_well_formed k v (d : dict) :
  well_formed (VDict d) = true -> well_formed v = true ->
  well_formed (VDict (dict_store k v d)) = true.
Proof.
  simpl. intros Hd Hv. apply andb_prop in Hd as [Hu Hall].
  rewrite dict_store_uniq by done. by rewrite dict_store_values.
Qed.

Lemma well_formed_lookup k v (d : dict) :
  well_formed (VDict d) = true -> dict_lookup k d = Some v -> well_formed v = true.
Proof.
  simpl. intros Hd Hk. apply andb_prop in Hd as [_ Hall].
  rewrite forallb_forall in Hall. apply (Hall (k, v)). by apply dict_lookup_in.
Qed.

Lemma dict_merge_rec_well_formed b :
  forall a,
    well_formed a = true -> well_formed b = true ->
    well_formed (dict_merge_rec a b) = true.
Proof.
  induction b as [| | | | |l _|db IH] using pyval_ind; intros a Ha Hb;
    try (by destruct a).
  destruct (is_dict a) eqn:Hda; [|by rewrite dict_merge_rec_not_dict].
  destruct a as [| | | | | |da]; try done.
  rewrite dict_merge_rec_fold. clear Hda.
  simpl in Hb. apply andb_prop in Hb as [_ Hall].
  revert da Ha. induction db as [|[k v] db IHdb]; intros da Ha; [done |].
  simpl in Hall. apply andb_prop in Hall as [Hv Hall].
  inversion IH as [|? ? IHv IHrest]; subst. simpl.
  apply IHdb; [done | done |].
  unfold merge_step. simpl.
  destruct (dict_lookup k da) as [akey|] eqn:Hk;
    [destruct (is_dict akey && is_dict v) |];
    apply dict_store_well_formed; try done.
  apply IHv; [|done]. by eapply well_formed_lookup.
Qed.

(** X1. [dict_merge] keeps the invariant of dicts: merging a well-formed
    object payload into a well-formed tree returns a well-formed tree (no key
    twice in any dict). *)
Theorem dict_merge_well_formed (a : pyval) (b : dict) :
  well_formed a = true ->
  well_formed (VDict b) = true ->
  exists r, (dict_merge a (VDict b)).2 = Ret r /\ well_formed r = true.
Proof.
  intros Ha Hb. exists (dict_merge_rec a (VDict b)).
  rewrite dict_merge_dict. split; [done |].
  by apply dict_merge_rec_well_formed.
Qed.

Lemma dict_merge_well_formed_witness :
  exists r,
    (dict_merge (VDict [(KStr "A", VDict [(KStr "value", VInt 7)])])
                (VDict [(KStr "A", VDict [(KStr "value", VInt 8)]);
                        (KStr "B", VStr "x")])).2 = Ret r /\
    well_formed r = true.
Proof. apply dict_merge_well_formed; reflexivity. Defined.

Lemma fold_merge_keys (db : dict) :
  forall da, exists new,
    map fst (fold_left merge_step db da) = (map fst da ++ new)%list.
Proof.
  induction db as [|[k v] db IH]; intros da; simpl.
  - exists []. by rewrite app_nil_r.
  - destruct (IH (merge_step da (k, v))) as [new Hnew]. rewrite Hnew.
    assert (exists new', map fst (merge_step da (k, v)) = (map fst da ++ new')%list)
      as [new' ->].
    { unfold merge_step. simpl.
      destruct (dict_lookup k da) as [akey|] eqn:Hk;
        [destruct (is_dict akey && is_dict v) |];
        rewrite dict_store_keys, Hk; first [by exists [] ; rewrite app_nil_r | by exists [k]]. }
    exists (new' ++ new)%list. by rewrite <- app_assoc.
Qed.

(** X2. What [dict_merge] leaves alone: for a dict [a] and an object payload
    [b], every key of [a] that [b] does not mention keeps its value, and the
    keys of [a] keep their order, new keys being appended after them; so no
    key is ever removed. *)
Theorem dict_merge_keeps_other_keys (a b : dict) :
  exists r new,
    dict_merge (VDict a) (VDict b) = (VDict r, Ret (VDict r)) /\
    map fst r = (map fst a ++ new)%list /\
    forall k, dict_lookup k b = None -> dict_lookup k r = dict_lookup k a.
Proof.
  destruct (fold_merge_keys b a) as [new Hnew].
  exists (fold_left merge_step b a), new.
  rewrite dict_merge_dict, dict_merge_rec_fold. split; [done |]. split; [done |].
  intros k Hk. apply fold_merge_lookup_fresh. by apply dict_lookup_none_fresh.
Qed.

Lemma fold_merge_append (db : dict) :
  forall da,
    uniq (map fst da ++ map fst db) = true ->
    fold_left merge_step db da = (da ++ db)%list.
Proof.
  induction db as [|[k v] db IH]; intros da Hu; simpl.
  - by rewrite app_nil_r.
  - assert (Hk : dict_lookup k da = None).
    { destruct (dict_lookup k da) as [w|] eqn:Hk; [|done]. exfalso.
      apply dict_lookup_in in Hk.
      revert Hu. clear -Hk. induction da as [|[j x] da IHda]; [done |].
      simpl. intros Hu. apply andb_prop in Hu as [Hj Hu].
      destruct Hk as [[= -> ->]|Hin]; [|by apply IHda].
      apply negb_true_iff in Hj. rewrite existsb_app in Hj.
      apply orb_false_elim in Hj as [_ Hj]. simpl in Hj.
      by rewrite key_eqb_refl in Hj. }
    unfold merge_step at 2. simpl. rewrite Hk, dict_store_fresh by done.
    rewrite IH; [by rewrite <- app_assoc |].
    rewrite map_app. simpl. by rewrite <- app_assoc.
Qed.

(** X3. The first merge into an empty dict stores the payload as it is:
    [dict_merge({}, b)] returns a dict equal to [b], keys in the order of
    [b]. *)
Theorem dict_merge_into_empty (b : dict) :
  uniq (map fst b) = true ->
  dict_merge (VDict []) (VDict b) = (VDict b, Ret (VDict b)).
Proof.
  intros Hu. rewrite dict_merge_dict, dict_merge_rec_fold.
  by rewrite fold_merge_append.
Qed.

Lemma dict_merge_into_empty_witness :
  dict_merge (VDict []) (VDict [(KStr "A", VInt 1); (KStr "B", VDict [])])
  = (VDict [(KStr "A", VInt 1); (KStr "B", VDict [])],
     Ret (VDict [(KStr "A", VInt 1); (KStr "B", VDict [])])).
Proof. apply dict_merge_into_empty. reflexivity. Defined.

Lemma fold_merge_lookup (db : dict) k da :
  uniq (map fst db) = true ->
  dict_lookup k (fold_left merge_step db da)
  = match dict_lookup k db with
    | Some v =>
        Some (match dict_lookup k da with
              | Some akey => if is_dict akey && is_dict v
                             then dict_merge_rec akey v else v
              | None => v
              end)
    | None => dict_lookup k da
    end.
Proof.
  intros Hu. destruct (dict_lookup k db) as [v|] eqn:Hk.
  - by apply fold_merge_lookup_in.
  - apply fold_merge_lookup_fresh. by apply dict_lookup_none_fresh.
Qed.

(** X4. Payloads with disjoint top-level keys can be merged in either
    order: every key holds the same value afterwards. *)
Theorem dict_merge_disjoint_commute (a b1 b2 : dict) (k : key) :
  uniq (map fst b1) = true ->
  uniq (map fst b2) = true ->
  (forall j, dict_lookup j b1 = None \/ dict_lookup j b2 = None) ->
  exists r12 r21,
    (dict_merge (dict_merge (VDict a) (VDict b1)).1 (VDict b2)).2 = Ret (VDict r12) /\
    (dict_merge (dict_merge (VDict a) (VDict b2)).1 (VDict b1)).2 = Ret (VDict r21) /\
    dict_lookup k r12 = dict_lookup k r21.
Proof.
  intros Hu1 Hu2 Hdisj.
  exists (fold_left merge_step b2 (fold_left merge_step b1 a)),
         (fold_left merge_step b1 (fold_left merge_step b2 a)).
  repeat (rewrite ?dict_merge_dict, ?dict_merge_rec_fold; cbn [fst snd is_dict]).
  split; [done |]. split; [done |].
  rewrite !fold_merge_lookup by done.
  destruct (Hdisj k) as [H1|H2].
  - rewrite H1. by destruct (dict_lookup k b2).
  - rewrite H2. by destruct (dict_lookup k b1).
Qed.

Lemma dict_merge_disjoint_commute_witness :
  exists r12 r21,
    (dict_merge (dict_merge (VDict [(KStr "A", VInt 0)])
                            (VDict [(KStr "B", VInt 1)])).1
                (VDict [(KStr "C", VInt 2)])).2 = Ret (VDict r12) /\
    (dict_merge (dict_merge (VDict [(KStr "A", VInt 0)])
                            (VDict [(KStr "C", VInt 2)])).1
                (VDict [(KStr "B", VInt 1)])).2 = Ret (VDict r21) /\
    dict_lookup (KStr "C") r12 = dict_lookup (KStr "C") r21.
Proof.
  apply dict_merge_disjoint_commute; try reflexivity.
  intros j. destruct (key_eqb_spec (KStr "B") j) as [<-|Hne].
  - by right.
  - left. cbn [dict_lookup]. by rewrite key_eqb_neq.
Defined.

(** ** [dict_get] and [dict_set] *)

(** X5. Store, then load: when [p] leads to a dict, [dict_set] under
    [p + [k]] returns, and [dict_get] finds the stored value under the same
    keys afterwards. *)
Theorem dict_set_then_get (d : pyval) (p : list key) (k : key) (v : pyval) (o : dict) :
  dict_get d p = Ret (VDict o) ->
  exists d',
    dict_set d (p ++ [k]) v = Ret d' /\
    dict_get d' (p ++ [k]) = Ret v.
Proof.
  intros Hp.
  destruct (dict_set_app p d [k] v (VDict o) (VDict (dict_store k v o)) Hp)
    as (d' & Hset & Hget); try done.
  exists d'. split; [done |].
  rewrite dict_get_app, Hget. simpl. by rewrite dict_lookup_store_eq.
Qed.

Lemma dict_set_then_get_witness :
  exists d',
    dict_set (VDict [(KStr "objects", VDict [(KStr "lamp", VDict [])])])
             ([KStr "objects"; KStr "lamp"] ++ [KStr "type"]) (VStr "light") = Ret d' /\
    dict_get d' ([KStr "objects"; KStr "lamp"] ++ [KStr "type"]) = Ret (VStr "light").
Proof. by apply (dict_set_then_get _ _ _ _ []). Defined.

Lemma dict_set_cons d k keys v :
  keys <> [] ->
  dict_set d (k :: keys) v
  = match py_getitem d k with
    | Ret sub =>
        match dict_set sub keys v with
        | Ret sub' => py_setitem d k sub'
        | Raise e => Raise e
        end
    | Raise e => Raise e
    end.
Proof. by destruct keys. Qed.

(** X6. [dict_set] creates no intermediate dict: when walking the keys
    before the last one fails, [dict_set] raises what [dict_get] raises on
    them, a [KeyError] for a missing key. *)
Theorem dict_set_fails_like_dict_get (p : list key) :
  forall (d : pyval) (q : list key) (v : pyval) (e : exn),
    dict_get d p = Raise e ->
    q <> [] ->
    dict_set d (p ++ q) v = Raise e.
Proof.
  induction p as [|k p IH]; intros d q v e Hget Hq; [done |].
  change ((k :: p) ++ q)%list with (k :: (p ++ q))%list.
  rewrite dict_set_cons by (intros [_ ->]%app_eq_nil; done).
  cbn [dict_get] in Hget.
  destruct (py_getitem d k) as [sub|e'] eqn:Hk.
  - by rewrite (IH sub q v e).
  - by injection Hget as ->.
Qed.

Lemma dict_set_fails_like_dict_get_witness :
  dict_set (VDict [(KStr "A", VInt 0)]) ([KStr "objects"] ++ [KStr "lamp"]) (VDict [])
  = Raise KeyError.
Proof. by apply dict_set_fails_like_dict_get. Defined.

(** ** What the dispatcher leaves alone *)

Section keeps.
Context {R : ZOCP -> ZOCP -> Prop} (peer : N).
Hypothesis R_refl : forall s, R s s.
Hypothesis R_trans : forall s1 s2 s3, R s1 s2 -> R s2 s3 -> R s1 s3.

Lemma keeps_ret {A} (x : A) : keeps R peer (ret x).
Proof. intros self. split; [apply R_refl | constructor]. Qed.

Lemma keeps_raise {A} (e : exn) : keeps R peer (@raise A e).
Proof. intros self. split; [apply R_refl | constructor]. Qed.

Lemma keeps_lift {A} (r : outcome A) : keeps R peer (lift r).
Proof. destruct r; [apply keeps_ret | apply keeps_raise]. Qed.

Lemma keeps_gets {A} (f : ZOCP -> A) : keeps R peer (gets f).
Proof. intros self. split; [apply R_refl | constructor]. Qed.

Lemma keeps_emit (ev : effect) : replies_to peer ev -> keeps R peer (emit ev).
Proof. intros Hev self. split; [apply R_refl | by repeat constructor]. Qed.

Lemma keeps_modify (f : ZOCP -> ZOCP) :
  (forall s, R s (f s)) -> keeps R peer (modify f).
Proof. intros Hf self. split; [apply Hf | constructor]. Qed.

Lemma keeps_bind {A B} (m : M A) (k : A -> M B) :
  keeps R peer m -> (forall x, keeps R peer (k x)) -> keeps R peer (bind m k).
Proof.
  intros Hm Hk self. destruct (Hm self) as [HR HE].
  unfold bind, node_of, effects_of in *.
  destruct (m self) as [[[x|e] self'] out]; [|done]. simpl in *.
  destruct (Hk x self') as [HR' HE']. unfold node_of, effects_of in *.
  destruct (k x self') as [[r self''] out']. simpl in *. split.
  - by eapply R_trans.
  - by apply Forall_app.
Qed.

Lemma keeps_bind_ret {A B} (x : A) (k : A -> M B) :
  keeps R peer (k x) -> keeps R peer (bind (ret x) k).
Proof.
  intros Hk self. destruct (Hk self) as [HR HE].
  unfold bind, ret, node_of, effects_of in *.
  by destruct (k x self) as [[r self'] out].
Qed.

Lemma keeps_bind_raise {A B} (e : exn) (k : A -> M B) :
  keeps R peer (bind (raise e) k).
Proof. intros self. split; [apply R_refl | constructor]. Qed.

Lemma keeps_try_except {A} (m : M A) (h : exn -> M A) :
  keeps R peer m -> (forall e, keeps R peer (h e)) -> keeps R peer (try_except m h).
Proof.
  intros Hm Hh self. destruct (Hm self) as [HR HE].
  unfold try_except, node_of, effects_of in *.
  destruct (m self) as [[[x|e] self'] out]; [done |]. simpl in *.
  destruct (Hh e self') as [HR' HE']. unfold node_of, effects_of in *.
  destruct (h e self') as [[r self''] out']. simpl in *. split.
  - by eapply R_trans.
  - by apply Forall_app.
Qed.

Lemma keeps_if {A} (b : bool) (m1 m2 : M A) :
  keeps R peer m1 -> keeps R peer m2 -> keeps R peer (if b then m1 else m2).
Proof. by destruct b. Qed.

Lemma collect_items_keeps items : forall acc, keeps R peer (collect_items items acc).
Proof.
  induction items as [|item items IH]; intros acc; [apply keeps_ret |].
  cbn [collect_items]. apply keeps_bind; [apply keeps_gets |]. intros cap.
  destruct cap; try apply keeps_raise.
  destruct (as_key item); [apply IH | apply keeps_raise].
Qed.

Lemma handle_GET_keeps data grp : keeps R peer (_handle_GET data peer grp).
Proof.
  unfold _handle_GET. apply keeps_if.
  - apply keeps_bind; [apply keeps_gets |]. intros cap. by apply keeps_emit.
  - apply keeps_bind; [apply keeps_lift |]. intros items.
    apply keeps_bind; [apply collect_items_keeps |]. intros ret_.
    apply keeps_bind; by intros; apply keeps_emit.
Qed.

Lemma handle_SET_keeps data grp :
  (SET_keeps R) ->
  keeps R peer (_handle_SET data peer grp).
Proof.
  intros [Hcap Hgo]. unfold _handle_SET. apply keeps_bind; [apply keeps_gets |].
  intros cap. apply keeps_bind; [intros s; split; [apply Hgo | constructor] |].
  intros _. destruct (dict_merge cap data) as [cap' [merged|e]].
  - apply keeps_bind; [apply keeps_modify; intros s; apply (Hcap s merged) |].
    intros _. by apply keeps_emit.
  - apply keeps_bind; [apply keeps_modify; intros s; apply (Hcap s cap') |].
    intros _. apply keeps_raise.
Qed.

Lemma handle_MOD_keeps data grp :
  (forall s p, R s (node_of (set_peers p s))) ->
  keeps R peer (_handle_MOD data peer grp).
Proof.
  intros Hpeers. unfold _handle_MOD. apply keeps_bind; [apply keeps_gets |].
  intros ps. destruct (dict_merge _ data) as [mirror' [merged|e]].
  - apply keeps_bind; [apply keeps_modify; intros s; apply (Hpeers s _) |].
    intros _. by apply keeps_emit.
  - apply keeps_bind; [|intros _; apply keeps_raise].
    destruct (ps !! peer); [|apply keeps_ret].
    apply keeps_modify. intros s. apply (Hpeers s _).
Qed.

Lemma handle_other_keeps method data : keeps R peer (handle_other method data).
Proof.
  unfold handle_other. apply keeps_try_except.
  - destruct method; apply keeps_raise.
  - intros e. apply keeps_raise.
Qed.

Lemma handle_verb_keeps msg method grp :
  (method = KStr "SET" -> SET_keeps R) ->
  (method = KStr "MOD" -> forall s p, R s (node_of (set_peers p s))) ->
  keeps R peer (handle_verb msg method peer grp).
Proof.
  intros Hcap Hpeers. unfold handle_verb.
  apply keeps_bind; [apply keeps_lift |]. intros data.
  repeat match goal with
         | |- keeps _ _ (if key_eqb method ?k then _ else _) =>
             destruct (key_eqb_spec method k)
         end;
    first [ apply handle_GET_keeps
          | apply handle_SET_keeps; by apply Hcap
          | apply handle_MOD_keeps; by apply Hpeers
          | apply keeps_ret
          | apply handle_other_keeps ].
Qed.

Lemma handle_verbs_keeps msg methods grp :
  (In (KStr "SET") methods -> SET_keeps R) ->
  (In (KStr "MOD") methods -> forall s p, R s (node_of (set_peers p s))) ->
  keeps R peer (handle_verbs msg methods peer grp).
Proof.
  induction methods as [|method methods IH]; intros Hcap Hpeers; [apply keeps_ret |].
  cbn [handle_verbs]. apply keeps_bind.
  - apply handle_verb_keeps; intros ->; [apply Hcap | apply Hpeers]; by left.
  - intros _. apply IH; intros Hin; [apply Hcap | apply Hpeers]; by right.
Qed.

Lemma decode_and_dispatch_keeps msg grp :
  let verbs := match msg with
               | f :: _ => match frame_json f with
                           | Some (VDict items) => map fst items
                           | _ => []
                           end
               | [] => []
               end in
  (In (KStr "SET") verbs -> SET_keeps R) ->
  (In (KStr "MOD") verbs -> forall s p, R s (node_of (set_peers p s))) ->
  keeps R peer (decode_and_dispatch msg peer grp).
Proof.
  intros verbs Hcap Hpeers self. unfold decode_and_dispatch, bind, try_except, pop0.
  destruct msg as [|f msg]; [cbn; split; [apply R_refl | by repeat constructor] |].
  cbn. subst verbs. cbn in Hcap, Hpeers.
  destruct (frame_json f) as [v|]; cbn;
    [|split; [apply R_refl | by repeat constructor]].
  destruct v as [| | | | | |items]; try (split; [apply R_refl | constructor]).
  destruct (handle_verbs_keeps (VDict items) (map fst items) grp Hcap Hpeers self)
    as [HR HE].
  unfold node_of, effects_of in *.
  by destruct (handle_verbs _ _ _ _ self) as [[r self'] out].
Qed.

Lemma get_message_keeps type frames :
  let ev := Event type peer frames in
  (In (KStr "SET") (event_verbs ev) ->
   SET_keeps R) ->
  (type = "ENTER" \/ type = "EXIT" \/ In (KStr "MOD") (event_verbs ev) ->
   forall s p, R s (node_of (set_peers p s))) ->
  keeps R peer (get_message ev).
Proof.
  intros ev Hcap Hpeers. subst ev. unfold get_message, event_verbs in *.
  cbn [ev_type ev_peer ev_frames] in *.
  destruct (String.eqb_spec type "ENTER") as [Henter|_].
  { apply keeps_bind; [apply keeps_gets |]. intros ps.
    apply keeps_bind.
    - apply keeps_if; [|apply keeps_ret].
      apply keeps_modify. intros s. apply (Hpeers (or_introl Henter) s _).
    - intros _. apply keeps_bind; by intros; apply keeps_emit. }
  destruct (String.eqb_spec type "EXIT") as [Hexit|_].
  { apply keeps_bind; [by apply keeps_emit |]. intros _.
    apply keeps_bind; [apply keeps_gets |]. intros ps.
    destruct (ps !! peer); [|apply keeps_raise].
    apply keeps_modify. intros s. apply (Hpeers (or_intror (or_introl Hexit)) s _). }
  destruct (String.eqb type "JOIN").
  { destruct frames as [|grp msg]; [apply keeps_bind_raise |].
    apply keeps_bind_ret. by apply keeps_emit. }
  destruct (String.eqb type "LEAVE").
  { destruct frames as [|grp msg]; [apply keeps_bind_raise |].
    apply keeps_bind_ret. by apply keeps_emit. }
  destruct (String.eqb type "SHOUT").
  { destruct frames as [|grp msg]; [apply keeps_bind_raise |].
    apply keeps_bind_ret. cbn [tail] in *.
    apply keeps_bind; [by apply keeps_emit |]. intros _.
    apply decode_and_dispatch_keeps; [done |].
    intros Hin. apply Hpeers. by do 2 right. }
  destruct (String.eqb type "WHISPER"); [|apply keeps_ret].
  apply keeps_bind; [by apply keeps_emit |]. intros _.
  apply decode_and_dispatch_keeps; [done |].
  intros Hin. apply Hpeers. by do 2 right.
Qed.
End keeps.

Lemma same_scope_refl s : same_scope s s.
Proof. by repeat split. Qed.

Lemma same_scope_trans s1 s2 s3 : same_scope s1 s2 -> same_scope s2 s3 -> same_scope s1 s3.
Proof. unfold same_scope. intros (-> & -> & -> & ->) (-> & -> & -> & ->). done. Qed.

Lemma let_go_same_scope s replaced : same_scope s (node_of (let_go replaced s)).
Proof.
  destruct (let_go_spec replaced s) as (s' & -> & _ & Hn & _ & Hc & Hk & Hr).
  by repeat split.
Qed.

Lemma let_go_peers s replaced : peers (node_of (let_go replaced s)) = peers s.
Proof. by destruct (let_go_spec replaced s) as (s' & -> & Hp & _). Qed.

Lemma let_go_detached s replaced o :
  _cur_obj_detached s = Some o -> _cur_obj_detached (node_of (let_go replaced s)) = Some o.
Proof. intros Hd. unfold let_go, modify, node_of. cbn. by rewrite Hd. Qed.

(** X7. The dispatcher never touches the insertion scope, the running flag
    or the node name: whatever the event, and also when the handler raises,
    [_cur_obj], [_cur_obj_keys], [_running] and [name] are as before.  Nor
    does it store through [self._cur_obj]: an object that the reference
    holds outside the capability tree is as before. *)
Theorem get_message_keeps_scope (ev : event) (self : ZOCP) :
  same_scope self (node_of (get_message ev self)) /\
  (forall o, _cur_obj_detached self = Some o ->
             _cur_obj_detached (node_of (get_message ev self)) = Some o).
Proof.
  destruct ev as [type peer frames].
  apply (get_message_keeps
           (R := fun s s' =>
                   same_scope s s' /\
                   (forall o, _cur_obj_detached s = Some o -> _cur_obj_detached s' = Some o))
           peer).
  - intros s. split; [apply same_scope_refl | done].
  - intros s1 s2 s3 [H12 D12] [H23 D23]. split; [by eapply same_scope_trans | auto].
  - intros _. split.
    + intros s c. split; [by repeat split | done].
    + intros s replaced. split; [apply let_go_same_scope | apply let_go_detached].
  - intros _ s x. split; [by repeat split | done].
Qed.

(** X8. The dispatcher answers only the sender: every message [get_message]
    whispers goes to the peer the event came from, and it never shouts,
    whatever the event and also when the handler raises. *)
Theorem get_message_replies_to_sender (ev : event) (self : ZOCP) :
  Forall (replies_to (ev_peer ev)) (effects_of (get_message ev self)).
Proof.
  destruct ev as [type peer frames].
  by apply (get_message_keeps (R := fun _ _ => True) peer
              (fun _ => I) (fun _ _ _ _ _ => I) type frames
              (fun _ => conj (fun _ _ => I) (fun _ _ => I))).
Qed.

(** X9. Only a SET writes the capability tree: an event whose message has
    no SET verb leaves [capability] as it is, also when the handler raises. *)
Theorem capability_changes_only_by_SET (ev : event) (self : ZOCP) :
  ~ In (KStr "SET") (event_verbs ev) ->
  capability (node_of (get_message ev self)) = capability self.
Proof.
  intros Hset. destruct ev as [type peer frames].
  apply (get_message_keeps (R := fun s s' => capability s' = capability s) peer
           (fun _ => eq_refl)
           (fun s1 s2 s3 H12 H23 => eq_trans H23 H12) type frames);
    [done | by intros _ s p].
Qed.

Lemma capability_changes_only_by_SET_witness :
  capability
    (node_of
       (get_message
          (Event "WHISPER" 7%N
             [Frame "" (Some (VDict [(KStr "MOD", set_B_y); (KStr "PING", VNone)]))])
          read_only_B))
  = capability read_only_B.
Proof.
  apply capability_changes_only_by_SET. simpl. intros [H|[H|[]]]; discriminate.
Defined.

(** X10. Only ENTER, EXIT and MOD write the peer registry: any other event
    leaves [peers] as it is, also when the handler raises. *)
Theorem peers_change_only_by_ENTER_EXIT_MOD (ev : event) (self : ZOCP) :
  ev_type ev <> "ENTER" ->
  ev_type ev <> "EXIT" ->
  ~ In (KStr "MOD") (event_verbs ev) ->
  peers (node_of (get_message ev self)) = peers self.
Proof.
  intros Henter Hexit Hmod. destruct ev as [type peer frames].
  apply (get_message_keeps (R := fun s s' => peers s' = peers s) peer
           (fun _ => eq_refl)
           (fun s1 s2 s3 H12 H23 => eq_trans H23 H12) type frames);
    [intros _; split; [by intros s c | apply let_go_peers] | by intros [?|[?|?]]].
Qed.

Lemma peers_change_only_by_ENTER_EXIT_MOD_witness :
  peers
    (node_of
       (get_message
          (Event "SHOUT" 7%N
             [Frame "ZOCP" None;
              Frame "" (Some (VDict [(KStr "SET", set_B_y); (KStr "GET", VNone)]))])
          node_with_peer))
  = peers node_with_peer.
Proof.
  apply peers_change_only_by_ENTER_EXIT_MOD; try done.
  simpl. intros [H|[H|[]]]; discriminate.
Defined.

(** ** The peer registry *)

(** X11. ENTER registers the peer once: a peer not yet in the registry gets
    an empty mirror, a peer already there keeps its mirror; in both cases the
    node whispers [{GET: null}] to it, then calls [on_peer_enter]; the other
    peers and the capability tree are untouched. *)
Theorem ENTER_registers_peer (self : ZOCP) (peer : N) (msg : list frame) :
  exists self',
    get_message (Event "ENTER" peer msg) self
    = (Ret tt, self', [Whisper peer (VDict [(KStr "GET", VNone)]); OnPeerEnter peer msg]) /\
    peers self' !! peer = Some (default (VDict []) (peers self !! peer)) /\
    (forall q, q <> peer -> peers self' !! q = peers self !! q) /\
    capability self' = capability self.
Proof.
  unfold get_message, bind, gets. cbn.
  destruct (peers self !! peer) as [mirror|] eqn:Hpeer.
  - rewrite bool_decide_eq_true_2 by done. cbn.
    eexists. split; [reflexivity |]. by rewrite Hpeer.
  - rewrite bool_decide_eq_false_2 by (by intros [? ?]). cbn.
    eexists. split; [reflexivity |]. cbn. split; [by rewrite lookup_insert_eq |].
    split; [|done]. intros q Hq. by rewrite lookup_insert_ne.
Qed.

(** X12. EXIT of a registered peer returns and forgets that peer alone; an
    EXIT of the same peer right after raises [KeyError]. *)
Theorem EXIT_forgets_peer (self : ZOCP) (peer : N) (msg msg' : list frame) (mirror : pyval) :
  peers self !! peer = Some mirror ->
  exists self',
    get_message (Event "EXIT" peer msg) self = (Ret tt, self', [OnPeerExit peer msg]) /\
    peers self' !! peer = None /\
    (forall q, q <> peer -> peers self' !! q = peers self !! q) /\
    capability self' = capability self /\
    get_message (Event "EXIT" peer msg') self'
    = (Raise KeyError, self', [OnPeerExit peer msg']).
Proof.
  intros Hpeer. unfold get_message, bind, gets. cbn. rewrite Hpeer. cbn.
  eexists. split; [reflexivity |]. cbn.
  split; [by rewrite lookup_delete_eq |].
  split; [intros q Hq; by rewrite lookup_delete_ne |]. split; [done |].
  by rewrite lookup_delete_eq.
Qed.

Lemma EXIT_forgets_peer_witness :
  exists self',
    get_message (Event "EXIT" 7%N []) node_with_peer = (Ret tt, self', [OnPeerExit 7%N []]) /\
    peers self' !! 7%N = None /\
    (forall q, q <> 7%N -> peers self' !! q = peers node_with_peer !! q) /\
    capability self' = capability node_with_peer /\
    get_message (Event "EXIT" 7%N []) self' = (Raise KeyError, self', [OnPeerExit 7%N []]).
Proof. by apply (EXIT_forgets_peer node_with_peer 7%N [] [] (VDict [])). Defined.

(** X13. ENTER followed by EXIT of a peer that was not registered leaves the
    node exactly as it was. *)
Theorem ENTER_then_EXIT_restores (self : ZOCP) (peer : N) (msg msg' : list frame) :
  peers self !! peer = None ->
  (get_message (Event "ENTER" peer msg) ;; get_message (Event "EXIT" peer msg')) self
  = (Ret tt, self,
     [Whisper peer (VDict [(KStr "GET", VNone)]); OnPeerEnter peer msg;
      OnPeerExit peer msg']).
Proof.
  intros Hpeer. unfold get_message, bind, gets. cbn. rewrite Hpeer.
  rewrite bool_decide_eq_false_2 by (by intros [? ?]). cbn.
  rewrite lookup_insert_eq. cbn. rewrite delete_insert_id by done.
  by destruct self.
Qed.

Lemma ENTER_then_EXIT_restores_witness :
  (get_message (Event "ENTER" 7%N []) ;; get_message (Event "EXIT" 7%N [])) node_A
  = (Ret tt, node_A,
     [Whisper 7%N (VDict [(KStr "GET", VNone)]); OnPeerEnter 7%N []; OnPeerExit 7%N []]).
Proof. by apply ENTER_then_EXIT_restores. Defined.

Lemma handle_MOD_dict (data : dict) (peer : N) (grp : option frame) (self : ZOCP) :
  _handle_MOD (VDict data) peer grp self
  = (Ret tt,
     node_of (set_peers
                (<[peer := dict_merge_rec (default VNone (peers self !! peer)) (VDict data)]>
                   (peers self)) self),
     [OnPeerModified peer (VDict data)]).
Proof.
  unfold _handle_MOD, bind, gets.
  destruct (dict_merge (default VNone (peers self !! peer)) (VDict data))
    as [mirror' o] eqn:Hmerge.
  rewrite dict_merge_dict in Hmerge. by injection Hmerge as <- <-.
Qed.

Lemma handle_verb_MOD (data : dict) (peer : N) (grp : option frame) (self : ZOCP) :
  handle_verb (VDict [(KStr "MOD", VDict data)]) (KStr "MOD") peer grp self
  = _handle_MOD (VDict data) peer grp self.
Proof.
  unfold handle_verb, bind. cbn -[_handle_MOD].
  destruct (_handle_MOD (VDict data) peer grp self) as [[r self'] out].
  done.
Qed.

(** X14. A MOD with an object payload is merged into the sender's mirror and
    reported to [on_peer_modified]; the other mirrors and the capability
    tree are untouched.  The sender need not have entered: from an unknown
    peer the MOD creates the registry entry, with the payload as mirror. *)
Theorem MOD_updates_mirror
    (self : ZOCP) (peer : N) (data : dict) (f : frame) (rest : list frame) :
  frame_json f = Some (VDict [(KStr "MOD", VDict data)]) ->
  exists self',
    get_message (Event "WHISPER" peer (f :: rest)) self
    = (Ret tt, self',
       [OnPeerWhisper peer (f :: rest); OnPeerModified peer (VDict data)]) /\
    peers self' !! peer
    = Some (dict_merge_rec (default VNone (peers self !! peer)) (VDict data)) /\
    (peers self !! peer = None -> peers self' !! peer = Some (VDict data)) /\
    (forall q, q <> peer -> peers self' !! q = peers self !! q) /\
    capability self' = capability self.
Proof.
  intros Hf. unfold get_message, decode_and_dispatch, bind, try_except.
  cbn -[handle_verb]. rewrite Hf. cbn -[handle_verb _handle_MOD].
  unfold handle_verb, bind. cbn -[_handle_MOD].
  unfold _handle_MOD, bind, gets. rewrite dict_merge_dict. cbn -[dict_merge_rec].
  eexists. split; [reflexivity |]. cbn -[dict_merge_rec].
  split; [by rewrite lookup_insert_eq |].
  split; [intros ->; by rewrite lookup_insert_eq |].
  split; [intros q Hq; by rewrite lookup_insert_ne | done].
Qed.

Lemma MOD_updates_mirror_witness :
  let f := Frame "" (Some (VDict [(KStr "MOD", VDict [(KStr "A", VInt 1)])])) in
  exists self',
    get_message (Event "WHISPER" 7%N [f]) node_A
    = (Ret tt, self',
       [OnPeerWhisper 7%N [f]; OnPeerModified 7%N (VDict [(KStr "A", VInt 1)])]) /\
    peers self' !! 7%N
    = Some (dict_merge_rec (default VNone (peers node_A !! 7%N)) (VDict [(KStr "A", VInt 1)])) /\
    (peers node_A !! 7%N = None -> peers self' !! 7%N = Some (VDict [(KStr "A", VInt 1)])) /\
    (forall q, q <> 7%N -> peers self' !! q = peers node_A !! q) /\
    capability self' = capability node_A.
Proof. by apply MOD_updates_mirror. Defined.

Lemma whisper_single_verb (self : ZOCP) (peer : N) (verb : string) (data : pyval)
    (f : frame) (rest : list frame) :
  frame_json f = Some (VDict [(KStr verb, data)]) ->
  get_message (Event "WHISPER" peer (f :: rest)) self
  = let '(r, self', out) :=
      handle_verb (VDict [(KStr verb, data)]) (KStr verb) peer None self in
    (r, self', OnPeerWhisper peer (f :: rest) :: out).
Proof.
  intros Hf. unfold get_message, decode_and_dispatch, bind, try_except.
  cbn -[handle_verb]. rewrite Hf. cbn -[handle_verb]. unfold bind.
  destruct (handle_verb _ _ _ _ self) as [[[[]|e] self'] out]; cbn; [|done].
  by rewrite app_nil_r.
Qed.

(** X15. Discovery between two nodes.  Node [a] learns of peer [pb] and
    whispers it a GET; node [b], receiving that message from [pa], whispers
    back its full tree; node [a], receiving that reply, holds the tree of [b]
    as its mirror of [pb]. *)
Theorem discovery_mirrors_capability
    (a b : ZOCP) (pa pb : N) (cap_b : dict) (entered : list frame) (fget fmod : frame) :
  peers a !! pb = None ->
  capability b = VDict cap_b ->
  uniq (map fst cap_b) = true ->
  frame_json fget = Some (VDict [(KStr "GET", VNone)]) ->
  frame_json fmod = Some (VDict [(KStr "MOD", capability b)]) ->
  exists a1 a2,
    get_message (Event "ENTER" pb entered) a
    = (Ret tt, a1, [Whisper pb (VDict [(KStr "GET", VNone)]); OnPeerEnter pb entered]) /\
    get_message (Event "WHISPER" pa [fget]) b
    = (Ret tt, b, [OnPeerWhisper pa [fget]; Whisper pa (VDict [(KStr "MOD", capability b)])]) /\
    get_message (Event "WHISPER" pb [fmod]) a1
    = (Ret tt, a2, [OnPeerWhisper pb [fmod]; OnPeerModified pb (capability b)]) /\
    peers a2 !! pb = Some (capability b).
Proof.
  intros Hpb Hcap Hu Hget Hmod. rewrite Hcap in *.
  do 2 eexists. split; [|split; [|split]].
  - unfold get_message, bind, gets. cbn. rewrite Hpb.
    rewrite bool_decide_eq_false_2 by (by intros [? ?]). reflexivity.
  - rewrite (whisper_single_verb b pa "GET" VNone fget [] Hget). cbn.
    by rewrite Hcap.
  - rewrite (whisper_single_verb _ pb "MOD" (VDict cap_b) fmod [] Hmod).
    by rewrite handle_verb_MOD, handle_MOD_dict.
  - cbn -[dict_merge_rec]. rewrite !lookup_insert_eq. cbn -[dict_merge_rec].
    rewrite dict_merge_rec_fold. by rewrite fold_merge_append.
Qed.

Lemma discovery_mirrors_capability_witness :
  let fget := Frame "" (Some (VDict [(KStr "GET", VNone)])) in
  let fmod := Frame "" (Some (VDict [(KStr "MOD", capability node_A)])) in
  exists a1 a2,
    get_message (Event "ENTER" 9%N []) fresh_node
    = (Ret tt, a1, [Whisper 9%N (VDict [(KStr "GET", VNone)]); OnPeerEnter 9%N []]) /\
    get_message (Event "WHISPER" 7%N [fget]) node_A
    = (Ret tt, node_A,
       [OnPeerWhisper 7%N [fget]; Whisper 7%N (VDict [(KStr "MOD", capability node_A)])]) /\
    get_message (Event "WHISPER" 9%N [fmod]) a1
    = (Ret tt, a2, [OnPeerWhisper 9%N [fmod]; OnPeerModified 9%N (capability node_A)]) /\
    peers a2 !! 9%N = Some (capability node_A).
Proof.
  by apply (discovery_mirrors_capability fresh_node node_A 7%N 9%N
              [(KStr "A", VDict [(KStr "value", VInt 7);
                                 (KStr "typeHint", VStr "int");
                                 (KStr "access", VStr "r")])]).
Defined.

(** X16. Receiving the same MOD twice leaves the node as receiving it
    once. *)
Theorem MOD_twice_is_MOD_once
    (self : ZOCP) (peer : N) (data : dict) (f : frame) (rest : list frame) :
  well_formed (VDict data) = true ->
  frame_json f = Some (VDict [(KStr "MOD", VDict data)]) ->
  node_of ((get_message (Event "WHISPER" peer (f :: rest)) ;;
            get_message (Event "WHISPER" peer (f :: rest))) self)
  = node_of (get_message (Event "WHISPER" peer (f :: rest)) self).
Proof.
  intros Hwf Hf.
  destruct (well_formed_merge_stable _ Hwf) as [_ Hidem].
  unfold bind at 1.
  rewrite (whisper_single_verb self peer "MOD" (VDict data) f rest Hf).
  rewrite handle_verb_MOD, handle_MOD_dict.
  cbn -[dict_merge_rec get_message].
  rewrite (whisper_single_verb _ peer "MOD" (VDict data) f rest Hf).
  rewrite handle_verb_MOD, handle_MOD_dict.
  cbn -[dict_merge_rec]. rewrite lookup_insert_eq. cbn -[dict_merge_rec].
  by rewrite Hidem, insert_insert_eq.
Qed.

Lemma MOD_twice_is_MOD_once_witness :
  let f := Frame "" (Some (VDict [(KStr "MOD", VDict [(KStr "A", VInt 1)])])) in
  node_of ((get_message (Event "WHISPER" 7%N [f]) ;;
            get_message (Event "WHISPER" 7%N [f])) node_with_peer)
  = node_of (get_message (Event "WHISPER" 7%N [f]) node_with_peer).
Proof. by apply (MOD_twice_is_MOD_once node_with_peer 7%N [(KStr "A", VInt 1)]). Defined.

(** ** Messages the dispatcher cannot use *)

(** X17. A SET whose payload is null, a boolean or a number raises
    [TypeError] out of [get_message]: the capability tree is as before and
    [on_modified] is not called. *)
Theorem SET_scalar_raises
    (self : ZOCP) (peer : N) (data : pyval) (f : frame) (rest : list frame) :
  is_dict (capability self) = true ->
  is_scalar data = true ->
  frame_json f = Some (VDict [(KStr "SET", data)]) ->
  get_message (Event "WHISPER" peer (f :: rest)) self
  = (Raise TypeError, self, [OnPeerWhisper peer (f :: rest)]).
Proof.
  intros Hcap Hdata Hf.
  rewrite (whisper_single_verb _ peer "SET" data f rest Hf).
  assert (Hset : _handle_SET data peer None self = (Raise TypeError, self, [])).
  { unfold _handle_SET. unfold bind at 1, gets. cbn [fst snd]. unfold bind at 1.
    rewrite let_go_kept.
    - destruct self as [ps nm cap cur det keys running]. cbn in *.
      destruct cap; try done. by destruct data.
    - rewrite Hcap. destruct (capability self); try done. by destruct data. }
  unfold handle_verb, bind. cbn -[_handle_SET]. by rewrite Hset.
Qed.

Lemma SET_scalar_raises_witness :
  let f := Frame "" (Some (VDict [(KStr "SET", VNone)])) in
  get_message (Event "WHISPER" 7%N [f]) node_A
  = (Raise TypeError, node_A, [OnPeerWhisper 7%N [f]]).
Proof. by apply (SET_scalar_raises node_A 7%N VNone). Defined.

(** X18. A WHISPER or SHOUT whose payload frame is missing or is not JSON is
    logged and dropped: [get_message] prints the error and returns, the node
    is as before and nothing is sent. *)
Theorem undecodable_frame_is_dropped
    (self : ZOCP) (peer : N) (grp : frame) (msg : list frame) :
  match msg with [] => True | f :: _ => frame_json f = None end ->
  get_message (Event "WHISPER" peer msg) self
  = (Ret tt, self, [OnPeerWhisper peer msg; PrintError]) /\
  get_message (Event "SHOUT" peer (grp :: msg)) self
  = (Ret tt, self, [OnPeerShout peer grp msg; PrintError]).
Proof.
  intros Hmsg. unfold get_message, decode_and_dispatch, bind, try_except.
  destruct msg as [|f msg]; cbn; [done |]. by rewrite Hmsg.
Qed.

Lemma undecodable_frame_is_dropped_witness :
  get_message (Event "WHISPER" 7%N [Frame "not json" None]) node_A
  = (Ret tt, node_A, [OnPeerWhisper 7%N [Frame "not json" None]; PrintError]) /\
  get_message (Event "SHOUT" 7%N [Frame "ZOCP" None; Frame "not json" None]) node_A
  = (Ret tt, node_A,
     [OnPeerShout 7%N (Frame "ZOCP" None) [Frame "not json" None]; PrintError]).
Proof. by apply (undecodable_frame_is_dropped node_A 7%N). Defined.

(** X19. A WHISPER or SHOUT whose payload frame is JSON but not an object
    (an array, a string, a number, null) raises [AttributeError] out of
    [get_message]; the node is as before and nothing is sent. *)
Theorem non_object_message_raises
    (self : ZOCP) (peer : N) (v : pyval) (grp f : frame) (rest : list frame) :
  frame_json f = Some v ->
  is_dict v = false ->
  get_message (Event "WHISPER" peer (f :: rest)) self
  = (Raise AttributeError, self, [OnPeerWhisper peer (f :: rest)]) /\
  get_message (Event "SHOUT" peer (grp :: f :: rest)) self
  = (Raise AttributeError, self, [OnPeerShout peer grp (f :: rest)]).
Proof.
  intros Hf Hv. unfold get_message, decode_and_dispatch, bind, try_except.
  cbn. rewrite Hf. by destruct v.
Qed.

Lemma non_object_message_raises_witness :
  let f := Frame "" (Some (VList [VStr "GET"])) in
  get_message (Event "WHISPER" 7%N [f]) node_A
  = (Raise AttributeError, node_A, [OnPeerWhisper 7%N [f]]) /\
  get_message (Event "SHOUT" 7%N [Frame "ZOCP" None; f]) node_A
  = (Raise AttributeError, node_A, [OnPeerShout 7%N (Frame "ZOCP" None) [f]]).
Proof. by apply (non_object_message_raises node_A 7%N (VList [VStr "GET"])). Defined.

Lemma handle_verbs_inert (items : dict) (peer : N) (grp : option frame) (self : ZOCP)
    (methods : list key) :
  incl methods (map fst items) ->
  forallb inert_verb methods = true ->
  handle_verbs (VDict items) methods peer grp self = (Ret tt, self, []).
Proof.
  induction methods as [|method methods IH]; intros Hincl Hall; [done |].
  simpl in Hall. apply andb_prop in Hall as [Hinert Hall].
  destruct (dict_lookup_key_in method items) as [data Hdata];
    [apply Hincl; by left |].
  cbn [handle_verbs]. unfold bind at 1.
  assert (handle_verb (VDict items) method peer grp self = (Ret tt, self, [])) as ->.
  { unfold handle_verb, bind, lift. cbn [py_getitem]. rewrite Hdata. cbn [ret].
    unfold inert_verb in Hinert. cbn [existsb] in Hinert.
    repeat (apply orb_prop in Hinert as [Hinert|Hinert]);
      try discriminate;
      apply (reflect_iff _ _ (key_eqb_spec _ _)) in Hinert; by subst method. }
  rewrite IH; [done | | done]. intros m Hm. apply Hincl. by right.
Qed.

(** X20. A message all of whose verbs are among CALL, SUB, UNSUB, REP and
    SIG changes nothing: [get_message] returns, the node is as before, and
    nothing is sent or reported besides the transport callback. *)
Theorem inert_verbs_change_nothing
    (self : ZOCP) (peer : N) (items : dict) (grp f : frame) (rest : list frame) :
  frame_json f = Some (VDict items) ->
  forallb inert_verb (map fst items) = true ->
  get_message (Event "WHISPER" peer (f :: rest)) self
  = (Ret tt, self, [OnPeerWhisper peer (f :: rest)]) /\
  get_message (Event "SHOUT" peer (grp :: f :: rest)) self
  = (Ret tt, self, [OnPeerShout peer grp (f :: rest)]).
Proof.
  intros Hf Hall. unfold get_message, decode_and_dispatch, bind, try_except.
  cbn -[handle_verbs]. rewrite Hf. cbn -[handle_verbs].
  by rewrite !handle_verbs_inert by (done || apply incl_refl).
Qed.

Lemma inert_verbs_change_nothing_witness :
  let f := Frame "" (Some (VDict [(KStr "CALL", VList [VStr "f"; VList []]);
                                  (KStr "SUB", VList [VStr "a"; VStr "b"]);
                                  (KStr "SIG", VNone)])) in
  get_message (Event "WHISPER" 7%N [f]) node_A
  = (Ret tt, node_A, [OnPeerWhisper 7%N [f]]) /\
  get_message (Event "SHOUT" 7%N [Frame "ZOCP" None; f]) node_A
  = (Ret tt, node_A, [OnPeerShout 7%N (Frame "ZOCP" None) [f]]).
Proof.
  by apply (inert_verbs_change_nothing node_A 7%N
              [(KStr "CALL", VList [VStr "f"; VList []]);
               (KStr "SUB", VList [VStr "a"; VStr "b"]);
               (KStr "SIG", VNone)]).
Defined.

(** ** What a merge does to the object behind a reference *)

(** A merge that does not replace the object found at [p] leaves it at
    [p]: untouched where the payload does not reach it, and else with the
    payload's dict at [p] merged into it. *)
Lemma merge_keeps_object p :
  forall (da db : dict) (o : pyval),
    well_formed (VDict db) = true ->
    dict_get (VDict da) p = Ret o ->
    merge_replaces (VDict da) (VDict db) p = false ->
    dict_get (dict_merge_rec (VDict da) (VDict db)) p
    = Ret (match dict_get (VDict db) p with
           | Ret sub => dict_merge_rec o sub
           | Raise _ => o
           end).
Proof.
  induction p as [|k p IH]; intros da db o Hwf Hget Hkept.
  - cbn [dict_get] in *. by injection Hget as <-.
  - rewrite dict_merge_rec_fold. cbn [dict_get py_getitem merge_replaces] in *.
    cbn [well_formed] in Hwf. apply andb_prop in Hwf as [Hu Hall].
    rewrite (fold_merge_lookup db k da Hu).
    destruct (dict_lookup k da) as [akey|] eqn:Ha; [|done].
    destruct (dict_lookup k db) as [bkey|] eqn:Hb; [|done].
    destruct (is_dict akey && is_dict bkey) eqn:Hboth; [|done].
    apply andb_prop in Hboth as [Hda Hdb].
    destruct akey as [| | | | | |da']; try done.
    destruct bkey as [| | | | | |db']; try done.
    apply IH; try done.
    rewrite forallb_forall in Hall.
    apply (Hall (k, VDict db')). by apply dict_lookup_in.
Qed.

(** A merge that replaces the object found at [p] has put a value of the
    payload in the place of the object or of a dict above it: at a prefix
    [q] of [p] the tree held [av], the payload holds [bv], the two are not
    both dicts, and the tree holds [bv] afterwards. *)
Lemma merge_replaced_object p :
  forall (da db : dict) (o : pyval),
    well_formed (VDict db) = true ->
    dict_get (VDict da) p = Ret o ->
    merge_replaces (VDict da) (VDict db) p = true ->
    exists q r av bv,
      p = (q ++ r)%list /\ q <> [] /\
      dict_get (VDict da) q = Ret av /\
      dict_get (VDict db) q = Ret bv /\
      is_dict av && is_dict bv = false /\
      dict_get (dict_merge_rec (VDict da) (VDict db)) q = Ret bv.
Proof.
  induction p as [|k p IH]; intros da db o Hwf Hget Hrep; [done |].
  cbn [dict_get py_getitem merge_replaces] in *.
  cbn [well_formed] in Hwf. apply andb_prop in Hwf as [Hu Hall].
  destruct (dict_lookup k da) as [akey|] eqn:Ha; [|done].
  destruct (dict_lookup k db) as [bkey|] eqn:Hb; [|done].
  destruct (is_dict akey && is_dict bkey) eqn:Hboth.
  - apply andb_prop in Hboth as [Hda Hdb].
    destruct akey as [| | | | | |da']; try done.
    destruct bkey as [| | | | | |db']; try done.
    assert (Hwf' : well_formed (VDict db') = true).
    { rewrite forallb_forall in Hall.
      apply (Hall (k, VDict db')). by apply dict_lookup_in. }
    destruct (IH da' db' o Hwf' Hget Hrep) as (q & r & av & bv & -> & Hq & Hav & Hbv & Hnot & Hafter).
    exists (k :: q), r, av, bv. split; [done |]. split; [done |].
    rewrite dict_merge_rec_fold. cbn [dict_get py_getitem].
    rewrite (fold_merge_lookup db k da Hu), Ha, Hb. by cbn [is_dict andb].
  - exists [k], p, akey, bkey. split; [done |]. split; [done |].
    rewrite dict_merge_rec_fold. cbn [dict_get py_getitem].
    rewrite (fold_merge_lookup db k da Hu), Ha, Hb, Hboth. done.
Qed.

(** A SET with an object payload and the insertion scope: the merge
    either works on the scope in place, and [self._cur_obj] is the dict of
    the tree that received the payload, or it puts another value in the place
    of the scope, and [self._cur_obj] stays on the object as it was, which the
    tree no longer holds. *)
Lemma handle_SET_scope (self : ZOCP) (cap data : dict) (peer : N) (grp : option frame)
    (o : pyval) :
  capability self = VDict cap ->
  well_formed (VDict data) = true ->
  _cur_obj_detached self = None ->
  dict_get (VDict cap) (_cur_obj self) = Ret o ->
  let self' := node_of (_handle_SET (VDict data) peer grp self) in
  if merge_replaces (VDict cap) (VDict data) (_cur_obj self)
  then _cur_obj_detached self' = Some o
  else _cur_obj_detached self' = None /\
       cur_obj_item self' []
       = Ret (match dict_get (VDict data) (_cur_obj self) with
              | Ret sub => dict_merge_rec o sub
              | Raise _ => o
              end).
Proof.
  intros Hcap Hwf Hd Hget self'. subst self'.
  assert (Hrun : forall s0,
             let_go (fun p => if is_dict (capability self)
                              then dict_merge_replaces (capability self) (VDict data) p
                              else true) self = (Ret tt, s0, []) ->
             node_of (_handle_SET (VDict data) peer grp self)
             = with_capability s0 (dict_merge_rec (VDict cap) (VDict data))).
  { intros s0 Hgo. unfold _handle_SET. unfold bind at 1, gets. cbn [fst snd].
    unfold bind at 1. rewrite Hgo, Hcap, dict_merge_dict. done. }
  destruct (merge_replaces (VDict cap) (VDict data) (_cur_obj self)) eqn:Hrep.
  - rewrite (Hrun (with_detached self o)); [done |].
    unfold let_go, modify. rewrite Hd, Hcap, Hget. cbn [is_dict dict_merge_replaces].
    by rewrite Hrep.
  - rewrite (Hrun self).
    + unfold cur_obj_item. cbn [with_capability _cur_obj_detached capability _cur_obj].
      rewrite Hd, app_nil_r. split; [done |]. by apply merge_keeps_object.
    + apply let_go_kept. rewrite Hcap. cbn [is_dict dict_merge_replaces]. done.
Qed.

(** ** Registering and notifying *)

Lemma bind_yields {A B} (m : M A) (k : A -> M B) self x self' out r self'' out' :
  m self = (Ret x, self', out) ->
  k x self' = (r, self'', out') ->
  bind m k self = (r, self'', (out ++ out')%list).
Proof. intros Hm Hk. unfold bind. by rewrite Hm, Hk. Qed.

Lemma on_modified_runs data peer self :
  _on_modified data peer self = (Ret tt, self, modified_effects self data peer).
Proof.
  unfold _on_modified, modified_effects, reported, bind, gets, on_modified, shout, emit.
  by destruct (_cur_obj_keys self), (_running self).
Qed.

Lemma store_bound_spec self name (node d : dict) (bound : string) (b : pyval) :
  cur_obj_item self [] = Ret (VDict (dict_store name (VDict node) d)) ->
  exists self',
    (if truthy b then cur_obj_store [name; KStr bound] b else ret tt) self
    = (Ret tt, self', []) /\
    cur_obj_item self' []
    = Ret (VDict (dict_store name
                    (VDict (if truthy b then dict_store (KStr bound) b node else node)) d)) /\
    same_node self self'.
Proof.
  intros Hget. destruct (truthy b).
  - eapply cur_obj_store_spec; try done.
    cbn [dict_set py_getitem]. rewrite dict_lookup_store_eq.
    cbn [py_setitem]. by rewrite dict_store_store.
  - exists self. split; [done |]. split; [done | apply same_node_refl].
Qed.


(** Where the object is after a call that leaves the node the same: in the
    tree under the path if it was part of the tree, and else outside a tree
    that is as before. *)
Lemma same_node_item self self' sub v :
  same_node self self' ->
  cur_obj_item self' sub = Ret v ->
  match _cur_obj_detached self with
  | None =>
      _cur_obj_detached self' = None /\
      dict_get (capability self') (_cur_obj self ++ sub) = Ret v
  | Some _ => capability self' = capability self
  end.
Proof.
  intros (Hcur & _ & _ & _ & _ & Hd) Hitem. unfold cur_obj_item in Hitem.
  destruct (_cur_obj_detached self).
  - by destruct Hd.
  - rewrite Hd in Hitem. by rewrite <- Hcur.
Qed.

Lemma register_bounded_runs hint name value access min max step self d :
  cur_obj_item self [] = Ret (VDict d) ->
  let node := VDict (attribute_node hint value access min max step) in
  exists self',
    register_bounded hint name value access min max step self
    = (Ret tt, self', modified_effects self' (VDict [(KStr "name", node)]) None) /\
    cur_obj_item self' [] = Ret (VDict (dict_store name node d)) /\
    same_node self self'.
Proof.
  intros Hscope node.
  destruct (cur_obj_store_spec self [name]
              (VDict [(KStr "value", value); (KStr "typeHint", VStr hint);
                      (KStr "access", access)]) (VDict d) _ Hscope
              ltac:(done) ltac:(done) eq_refl) as (s1 & Hrun1 & Hget1 & H1).
  destruct (store_bound_spec s1 name _ d "min" min Hget1) as (s2 & Hrun2 & Hget2 & H2).
  destruct (store_bound_spec s2 name _ d "max" max Hget2) as (s3 & Hrun3 & Hget3 & H3).
  destruct (store_bound_spec s3 name _ d "step" step Hget3) as (s4 & Hrun4 & Hget4 & H4).
  exists s4. split; [|split; [done |]].
  - unfold register_bounded.
    eapply (bind_yields _ _ _ _ _ _ _ _ _ Hrun1).
    eapply (bind_yields _ _ _ _ _ _ _ _ _ Hrun2).
    eapply (bind_yields _ _ _ _ _ _ _ _ _ Hrun3).
    eapply (bind_yields _ _ _ _ _ _ _ _ _ Hrun4).
    eapply (bind_yields _ _ _ (VDict (attribute_node hint value access min max step)) s4 []).
    + unfold cur_obj_load, bind, gets, id. cbn [fst snd].
      rewrite cur_obj_item_app, Hget4. cbn [dict_get py_getitem].
      by rewrite dict_lookup_store_eq.
    + apply on_modified_runs.
  - apply (same_node_trans _ s1); [done |]. apply (same_node_trans _ s2); [done |].
    by apply (same_node_trans _ s3).
Qed.

Lemma register_plain_runs hint name value access self d :
  cur_obj_item self [] = Ret (VDict d) ->
  let node := VDict [(KStr "value", value); (KStr "typeHint", VStr hint);
                     (KStr "access", access)] in
  exists self',
    register_plain hint name value access self
    = (Ret tt, self', modified_effects self' (VDict [(KStr "name", node)]) None) /\
    cur_obj_item self' [] = Ret (VDict (dict_store name node d)) /\
    same_node self self'.
Proof.
  intros Hscope node.
  destruct (cur_obj_store_spec self [name] node (VDict d) _ Hscope
              ltac:(done) ltac:(done) eq_refl) as (s1 & Hrun1 & Hget1 & H1).
  exists s1. split; [|by split].
  unfold register_plain.
  eapply (bind_yields _ _ _ _ _ _ _ _ _ Hrun1).
  eapply (bind_yields _ _ _ node s1 []).
  - unfold cur_obj_load, bind, gets, id. cbn [fst snd].
    rewrite cur_obj_item_app, Hget1. cbn [dict_get py_getitem].
    by rewrite dict_lookup_store_eq.
  - apply on_modified_runs.
Qed.

Lemma attribute_node_fields hint value access min max step :
  let node := attribute_node hint value access min max step in
  dict_lookup (KStr "value") node = Some value /\
  dict_lookup (KStr "typeHint") node = Some (VStr hint) /\
  dict_lookup (KStr "access") node = Some access.
Proof.
  unfold attribute_node.
  by destruct (truthy min), (truthy max), (truthy step).
Qed.

(** The node [detached_lamp] is what a running node with an empty tree
    comes to by [set_object("lamp", "light")] and two SET requests: the
    first puts a number in the place of the object, the second a new dict,
    and neither reaches the object that [self._cur_obj] still refers to. *)
Example detached_lamp_reached :
  node_of
    ((set_object (KStr "lamp") (VStr "light") ;;
      _handle_SET (VDict [(KStr "objects", VDict [(KStr "lamp", VInt 1)])]) 7%N None ;;
      _handle_SET (VDict [(KStr "objects", VDict [(KStr "lamp", VDict [])])]) 7%N None)
       (mkZOCP ∅ VNone (VDict []) [] None [] true))
  = detached_lamp.
Proof. reflexivity. Qed.



(** X22. Registering notifies: each of the seven methods above calls
    [on_modified] once, with [{'name': node}] in the root scope and with the
    tuple [_cur_obj_keys] inside an object, where [node] is what
    [self._cur_obj[name]] holds after the stores; when the node is running it
    then shouts [{MOD: capability}] to the group ZOCP with the tree as it is
    by then, and otherwise it sends nothing.  The tree that is shouted holds
    [node] under the path of the scope while the scope is part of the tree;
    once an assignment has replaced the scope in the tree, it is the tree as
    it was before the call. *)
Theorem register_notifies
    (self : ZOCP) (scope : dict) (name : key) (value access min max step : pyval) :
  cur_obj_item self [] = Ret (VDict scope) ->
  Forall (fun reg => notifies_registration (reg name value access min max step) self name)
    [register_int; register_float; register_percent; register_vec2f; register_vec3f] /\
  Forall (fun reg => notifies_registration (reg name value access) self name)
    [register_bool; register_string].
Proof.
  intros Hscope.
  assert (Hb : forall hint,
             notifies_registration (register_bounded hint name value access min max step)
               self name).
  { intros hint.
    destruct (register_bounded_runs hint name value access min max step self scope Hscope)
      as (self' & Hrun & Hget & Hsame).
    assert (Hnode : cur_obj_item self' [name]
                    = Ret (VDict (attribute_node hint value access min max step))).
    { rewrite cur_obj_item_app, Hget. cbn [dict_get py_getitem].
      by rewrite dict_lookup_store_eq. }
    pose proof (same_node_item _ _ _ _ Hsame Hnode) as Htree.
    do 2 eexists. split; [exact Hrun |]. split; [exact Hnode |].
    destruct (_cur_obj_detached self); [done | by destruct Htree]. }
  assert (Hp : forall hint,
             notifies_registration (register_plain hint name value access) self name).
  { intros hint.
    destruct (register_plain_runs hint name value access self scope Hscope)
      as (self' & Hrun & Hget & Hsame).
    assert (Hnode : cur_obj_item self' [name]
                    = Ret (VDict [(KStr "value", value); (KStr "typeHint", VStr hint);
                                  (KStr "access", access)])).
    { rewrite cur_obj_item_app, Hget. cbn [dict_get py_getitem].
      by rewrite dict_lookup_store_eq. }
    pose proof (same_node_item _ _ _ _ Hsame Hnode) as Htree.
    do 2 eexists. split; [exact Hrun |]. split; [exact Hnode |].
    destruct (_cur_obj_detached self); [done | by destruct Htree]. }
  split; repeat constructor; first [apply Hb | apply Hp].
Qed.

Lemma register_notifies_witness :
  Forall (fun reg =>
            notifies_registration (reg (KStr "x") (VInt 1) (VStr "rw") VNone VNone VNone)
              detached_lamp (KStr "x"))
    [register_int; register_float; register_percent; register_vec2f; register_vec3f] /\
  Forall (fun reg =>
            notifies_registration (reg (KStr "x") (VInt 1) (VStr "rw"))
              detached_lamp (KStr "x"))
    [register_bool; register_string].
Proof. by apply (register_notifies detached_lamp [(KStr "type", VStr "light")]). Defined.

Lemma same_node_inside self self' :
  same_node self self' -> inside_object self' = inside_object self.
Proof.
  intros (Hcur & _ & _ & _ & _ & Hd). unfold inside_object. rewrite Hcur.
  destruct (_cur_obj_detached self).
  - destruct Hd as [Hd _]. by destruct (_cur_obj_detached self').
  - by rewrite Hd.
Qed.

Lemma py_getitem_KeyError d k :
  py_getitem d k = Raise KeyError ->
  exists items, d = VDict items /\ dict_lookup k items = None.
Proof.
  destruct d as [| | | |s|l|items]; cbn; try done.
  - destruct k; try done. by destruct (seq_index _ _).
  - destruct k; try done. by destruct (seq_index _ _).
  - destruct (dict_lookup k items) eqn:Hk; [done |]. by exists items.
Qed.

(** A store through a reference that is not [self.capability] adds no key
    to the top of the tree. *)
Lemma cur_obj_store_top self sub v self' name :
  inside_object self = true ->
  sub <> [] ->
  cur_obj_store sub v self = (Ret tt, self', []) ->
  py_getitem (capability self) name = Raise KeyError ->
  py_getitem (capability self') name = Raise KeyError.
Proof.
  unfold inside_object, cur_obj_store, bind, gets. cbn [fst snd].
  intros Hin Hsub Hrun Hfree.
  destruct (_cur_obj_detached self) as [o|].
  - destruct (dict_set o sub v); [|done]. cbn in Hrun. by injection Hrun as <-.
  - destruct (_cur_obj self) as [|k p]; [done |].
    change ((k :: p) ++ sub)%list with (k :: (p ++ sub))%list in Hrun.
    destruct (dict_set (capability self) (k :: (p ++ sub)%list) v) as [c|] eqn:Hset;
      [|done].
    cbn in Hrun. injection Hrun as <-. cbn [capability].
    rewrite dict_set_cons in Hset by (intros [_ ->]%app_eq_nil; done).
    destruct (py_getitem_KeyError _ _ Hfree) as (cap & Hcap & Hname).
    rewrite Hcap in Hset. cbn [py_getitem] in Hset.
    destruct (dict_lookup k cap) as [inner|] eqn:Hk; [|done].
    destruct (dict_set inner (p ++ sub)%list v) as [inner'|]; [|done].
    cbn [py_setitem] in Hset. injection Hset as <-. cbn [py_getitem].
    rewrite dict_lookup_store_ne; [by rewrite Hname |].
    intros ->. congruence.
Qed.

Lemma store_bound_top self sub (b : pyval) self' name :
  inside_object self = true ->
  sub <> [] ->
  (if truthy b then cur_obj_store sub b else ret tt) self = (Ret tt, self', []) ->
  py_getitem (capability self) name = Raise KeyError ->
  py_getitem (capability self') name = Raise KeyError.
Proof.
  intros Hin Hsub. destruct (truthy b); [by apply cur_obj_store_top |].
  by intros [= <-].
Qed.

(** X23. [register_vec4f] on a running node reads [self.capability[name]]
    instead of [self._cur_obj[name]]: when [self._cur_obj] is not
    [self.capability] itself and [name] is no top-level key of the tree, it
    raises [KeyError]; the attribute has been stored through the reference by
    then, and neither [on_modified] nor a shout has happened. *)
Theorem register_vec4f_raises_in_object
    (self : ZOCP) (cap scope : dict)
    (name : key) (value access min max step : pyval) :
  _running self = true ->
  capability self = VDict cap ->
  inside_object self = true ->
  cur_obj_item self [] = Ret (VDict scope) ->
  dict_lookup name cap = None ->
  exists self' node,
    register_vec4f name value access min max step self = (Raise KeyError, self', []) /\
    cur_obj_item self' [name] = Ret (VDict node) /\
    dict_lookup (KStr "value") node = Some value /\
    match _cur_obj_detached self with
    | None => dict_get (capability self') (_cur_obj self ++ [name]) = Ret (VDict node)
    | Some _ => capability self' = capability self
    end.
Proof.
  intros Hrunning Hcap Hin Hscope Hfree.
  assert (Hfree0 : py_getitem (capability self) name = Raise KeyError).
  { rewrite Hcap. cbn [py_getitem]. by rewrite Hfree. }
  destruct (cur_obj_store_spec self [name]
              (VDict [(KStr "value", value); (KStr "typeHint", VStr "vec4f");
                      (KStr "access", access)]) (VDict scope) _ Hscope
              ltac:(done) ltac:(done) eq_refl) as (s1 & Hrun1 & Hget1 & H1).
  pose proof (cur_obj_store_top self [name] _ s1 name Hin ltac:(done) Hrun1 Hfree0) as Hfree1.
  pose proof (same_node_inside _ _ H1) as Hin1. rewrite Hin in Hin1.
  destruct (store_bound_spec s1 name _ scope "min" min Hget1) as (s2 & Hrun2 & Hget2 & H2).
  pose proof (store_bound_top s1 [name; KStr "min"] min s2 name Hin1 ltac:(done) Hrun2 Hfree1)
    as Hfree2.
  pose proof (same_node_inside _ _ H2) as Hin2. rewrite Hin1 in Hin2.
  destruct (store_bound_spec s2 name _ scope "max" max Hget2) as (s3 & Hrun3 & Hget3 & H3).
  pose proof (store_bound_top s2 [name; KStr "max"] max s3 name Hin2 ltac:(done) Hrun3 Hfree2)
    as Hfree3.
  pose proof (same_node_inside _ _ H3) as Hin3. rewrite Hin2 in Hin3.
  destruct (store_bound_spec s3 name _ scope "step" step Hget3) as (s4 & Hrun4 & Hget4 & H4).
  pose proof (store_bound_top s3 [name; KStr "step"] step s4 name Hin3 ltac:(done) Hrun4 Hfree3)
    as Hfree4.
  assert (Hsame : same_node self s4).
  { apply (same_node_trans _ s1); [done |]. apply (same_node_trans _ s2); [done |].
    by apply (same_node_trans _ s3). }
  assert (Hnode : cur_obj_item s4 [name]
                  = Ret (VDict (attribute_node "vec4f" value access min max step))).
  { rewrite cur_obj_item_app, Hget4. cbn [dict_get py_getitem].
    by rewrite dict_lookup_store_eq. }
  exists s4, (attribute_node "vec4f" value access min max step).
  split; [|split; [done |split]].
  - unfold register_vec4f.
    eapply (bind_yields _ _ _ _ _ _ _ _ _ Hrun1).
    eapply (bind_yields _ _ _ _ _ _ _ _ _ Hrun2).
    eapply (bind_yields _ _ _ _ _ _ _ _ _ Hrun3).
    eapply (bind_yields _ _ _ _ _ _ _ _ _ Hrun4).
    destruct Hsame as (_ & _ & Hr & _).
    unfold bind, gets, lift. cbn [fst snd]. rewrite Hr, Hrunning. cbn [fst snd].
    by rewrite Hfree4.
  - by destruct (attribute_node_fields "vec4f" value access min max step) as (Hv & _).
  - pose proof (same_node_item _ _ _ _ Hsame Hnode) as Htree.
    destruct (_cur_obj_detached self); [done | by destruct Htree].
Qed.

Lemma register_vec4f_raises_in_object_witness :
  exists self' node,
    register_vec4f (KStr "colour") (VList [VInt 1; VInt 0; VInt 0; VInt 1]) (VStr "rw")
      VNone VNone VNone detached_lamp
    = (Raise KeyError, self', []) /\
    cur_obj_item self' [KStr "colour"] = Ret (VDict node) /\
    dict_lookup (KStr "value") node = Some (VList [VInt 1; VInt 0; VInt 0; VInt 1]) /\
    match _cur_obj_detached detached_lamp with
    | None =>
        dict_get (capability self') (_cur_obj detached_lamp ++ [KStr "colour"])
        = Ret (VDict node)
    | Some _ => capability self' = capability detached_lamp
    end.
Proof.
  by eapply (register_vec4f_raises_in_object detached_lamp _ [(KStr "type", VStr "light")]).
Defined.

(** ** Objects *)

Ltac run_set_object :=
  repeat (cbn -[dict_store dict_lookup truthy];
          unfold py_getitem, py_setitem;
          repeat match goal with
                 | H : dict_lookup _ _ = _ |- _ => rewrite H
                 | H : truthy _ = _ |- _ => rewrite H
                 end).

Lemma set_object_runs (self : ZOCP) (cap : dict) (oname : key) (type : pyval) :
  capability self = VDict cap ->
  objects_ready cap oname = true ->
  set_object oname type self
  = (Ret tt,
     mkZOCP (peers self) (name self)
       (VDict (capability_after_set_object cap oname type))
       [KStr "objects"; oname] None [KStr "objects"; oname] (_running self),
     []).
Proof.
  intros Hcap Hready. destruct self as [ps nm c cur det keys running].
  cbn in Hcap. subst c.
  unfold objects_ready, capability_after_set_object in *.
  unfold set_object, capability_get, bind, gets, set_cur_obj, set_cur_obj_keys,
    set_capability_attr, modify, lift, ret, raise.
  destruct (dict_lookup (KStr "objects") cap) as [objects|] eqn:Hobjects.
  - destruct (truthy objects) eqn:Htruthy.
    + destruct objects as [| | | | | |objs]; try done. cbn in Hready.
      destruct objs as [|o objs]; [done |].
      destruct (dict_lookup oname (o :: objs)) as [entry|] eqn:Hentry.
      * destruct (truthy entry) eqn:Hte.
        -- destruct entry as [| | | | | |e]; try done.
           destruct e as [|a e]; [done |].
           destruct (key_eqb oname KNone); run_set_object; reflexivity.
        -- destruct (key_eqb oname KNone); run_set_object;
             destruct entry as [| | | | | |[|a e]]; try done.
      * destruct (key_eqb oname KNone); run_set_object; reflexivity.
    + destruct (key_eqb oname KNone); run_set_object;
        destruct objects as [| | | | | |[|o objs]]; try done.
  - destruct (key_eqb oname KNone); run_set_object; reflexivity.
Qed.

Ltac fresh_object oname type :=
  exists [(oname, VDict [(KStr "type", type)])], [(KStr "type", type)];
  cbn [dict_lookup]; rewrite !key_eqb_refl;
  do 5 (split; [done |]); split;
  [ intros ? ? Heq; first [discriminate Heq | injection Heq as <-; done]
  | intros ? Heq j Hj;
    first [ discriminate Heq
          | injection Heq as <-; cbn [dict_lookup];
            rewrite key_eqb_neq by congruence; done ] ].

Lemma capability_after_set_object_spec (cap : dict) (oname : key) (type : pyval) :
  exists objs' scope,
    capability_after_set_object cap oname type
    = dict_store (KStr "objects") (VDict objs') cap /\
    dict_lookup oname objs' = Some (VDict scope) /\
    dict_lookup (KStr "type") scope = Some type /\
    objs' <> [] /\ scope <> [] /\
    (forall objs entry,
        dict_lookup (KStr "objects") cap = Some (VDict objs) ->
        dict_lookup oname objs = Some (VDict entry) ->
        entry <> [] ->
        scope = dict_store (KStr "type") type entry /\
        objs' = dict_store oname (VDict scope) objs) /\
    (forall objs,
        dict_lookup (KStr "objects") cap = Some (VDict objs) ->
        forall j, j <> oname -> dict_lookup j objs' = dict_lookup j objs).
Proof.
  assert (Hne : forall k v (d : dict), dict_store k v d <> []).
  { intros k v [|[j w] d]; simpl; [done |]. by destruct (key_eqb j k). }
  unfold capability_after_set_object.
  destruct (dict_lookup (KStr "objects") cap) as [[| | | | | |[|o objs]]|] eqn:Hobjects;
    try (by fresh_object oname type).
  destruct (dict_lookup oname (o :: objs)) as [[| | | | | |[|a e]]|] eqn:Hentry;
    try (exists (dict_store oname (VDict [(KStr "type", type)]) (o :: objs)),
                [(KStr "type", type)];
         split; [done |]; split; [apply dict_lookup_store_eq |];
         split; [done |]; split; [apply Hne |]; split; [done |]; split;
         [ intros ? ? [= <-]; rewrite Hentry; intros Heq;
           first [discriminate Heq | injection Heq as <-; done]
         | intros ? [= <-] j Hj; by apply dict_lookup_store_ne ]).
  exists (dict_store oname (VDict (dict_store (KStr "type") type (a :: e))) (o :: objs)),
         (dict_store (KStr "type") type (a :: e)).
  split; [done |]. split; [apply dict_lookup_store_eq |].
  split; [apply dict_lookup_store_eq |]. split; [apply Hne |]. split; [apply Hne |].
  split.
  - intros ? ? [= <-]. rewrite Hentry. by intros [= <-].
  - intros ? [= <-] j Hj. by apply dict_lookup_store_ne.
Qed.

(** X24. [set_object(name, type)] opens the object as the insertion scope:
    when [objects] is absent, empty or a dict in which [name] is absent,
    empty or a dict, it returns without notifying anyone, binds [_cur_obj]
    and [_cur_obj_keys] to [objects/name], whatever [_cur_obj] referred to
    before, and that object is a dict of the tree whose [type] is the given
    one; the peers and the other top-level entries of the capability are
    untouched. *)
Theorem set_object_opens_scope (self : ZOCP) (cap : dict) (oname : key) (type : pyval) :
  capability self = VDict cap ->
  objects_ready cap oname = true ->
  exists self' scope,
    set_object oname type self = (Ret tt, self', []) /\
    _cur_obj self' = [KStr "objects"; oname] /\
    _cur_obj_detached self' = None /\
    _cur_obj_keys self' = [KStr "objects"; oname] /\
    dict_get (capability self') (_cur_obj self') = Ret (VDict scope) /\
    dict_lookup (KStr "type") scope = Some type /\
    peers self' = peers self /\
    (forall j q, j <> KStr "objects" ->
                 dict_get (capability self') (j :: q) = dict_get (capability self) (j :: q)).
Proof.
  intros Hcap Hready.
  destruct (capability_after_set_object_spec cap oname type)
    as (objs' & scope & Hafter & Hentry & Htype & _).
  eexists _, scope. split; [by apply (set_object_runs self cap) |].
  cbn [_cur_obj _cur_obj_detached _cur_obj_keys capability peers]. rewrite Hafter, Hcap.
  repeat split; try done.
  - cbn [dict_get py_getitem]. rewrite dict_lookup_store_eq.
    cbn [dict_get py_getitem]. by rewrite Hentry.
  - intros j q Hj. cbn [dict_get py_getitem]. by rewrite dict_lookup_store_ne.
Qed.

Lemma set_object_opens_scope_witness :
  exists self' scope,
    set_object (KStr "lamp") (VStr "light") detached_lamp = (Ret tt, self', []) /\
    _cur_obj self' = [KStr "objects"; KStr "lamp"] /\
    _cur_obj_detached self' = None /\
    _cur_obj_keys self' = [KStr "objects"; KStr "lamp"] /\
    dict_get (capability self') (_cur_obj self') = Ret (VDict scope) /\
    dict_lookup (KStr "type") scope = Some (VStr "light") /\
    peers self' = peers detached_lamp /\
    (forall j q, j <> KStr "objects" ->
                 dict_get (capability self') (j :: q)
                 = dict_get (capability detached_lamp) (j :: q)).
Proof. by eapply set_object_opens_scope. Defined.

Lemma objects_ready_entry (cap objs entry : dict) (oname : key) :
  dict_lookup (KStr "objects") cap = Some (VDict objs) ->
  dict_lookup oname objs = Some (VDict entry) ->
  objects_ready cap oname = true.
Proof.
  intros Hobjects Hentry. unfold objects_ready. rewrite Hobjects.
  destruct objs as [|o objs]; [done |]. rewrite Hentry. cbn.
  by destruct entry.
Qed.

(** X25. [set_object] on an object that exists retypes it in place: the
    object keeps every attribute but [type], and the other objects are
    untouched. *)
Theorem set_object_keeps_attributes
    (self : ZOCP) (cap objs entry : dict) (oname : key) (type : pyval) :
  capability self = VDict cap ->
  dict_lookup (KStr "objects") cap = Some (VDict objs) ->
  dict_lookup oname objs = Some (VDict entry) ->
  entry <> [] ->
  exists self',
    set_object oname type self = (Ret tt, self', []) /\
    dict_get (capability self') [KStr "objects"; oname; KStr "type"] = Ret type /\
    (forall a q, a <> KStr "type" ->
       dict_get (capability self') (KStr "objects" :: oname :: a :: q)
       = dict_get (capability self) (KStr "objects" :: oname :: a :: q)) /\
    (forall j q, j <> oname ->
       dict_get (capability self') (KStr "objects" :: j :: q)
       = dict_get (capability self) (KStr "objects" :: j :: q)).
Proof.
  intros Hcap Hobjects Hentry Hne.
  destruct (capability_after_set_object_spec cap oname type)
    as (objs' & scope & Hafter & Hentry' & Htype & _ & _ & Hretype & Hothers).
  destruct (Hretype objs entry Hobjects Hentry Hne) as [-> _].
  eexists. split.
  { apply (set_object_runs self cap); [done |]. by eapply objects_ready_entry. }
  cbn [capability]. rewrite Hafter, Hcap. cbn [dict_get py_getitem].
  rewrite dict_lookup_store_eq, Hobjects. cbn [dict_get py_getitem].
  rewrite Hentry', Hentry. cbn [dict_get py_getitem]. rewrite dict_lookup_store_eq.
  split; [done |]. split.
  - intros a q Ha. by rewrite dict_lookup_store_ne.
  - intros j q Hj. by rewrite (Hothers objs Hobjects j Hj).
Qed.

Lemma set_object_keeps_attributes_witness :
  let self := mkZOCP ∅ VNone
                (VDict [(KStr "objects",
                         VDict [(KStr "lamp", VDict [(KStr "type", VStr "light");
                                                     (KStr "on", VBool true)])])])
                [] None [] false in
  exists self',
    set_object (KStr "lamp") (VStr "dimmer") self = (Ret tt, self', []) /\
    dict_get (capability self') [KStr "objects"; KStr "lamp"; KStr "type"]
    = Ret (VStr "dimmer") /\
    (forall a q, a <> KStr "type" ->
       dict_get (capability self') (KStr "objects" :: KStr "lamp" :: a :: q)
       = dict_get (capability self) (KStr "objects" :: KStr "lamp" :: a :: q)) /\
    (forall j q, j <> KStr "lamp" ->
       dict_get (capability self') (KStr "objects" :: j :: q)
       = dict_get (capability self) (KStr "objects" :: j :: q)).
Proof.
  by eapply (set_object_keeps_attributes _ _
               [(KStr "lamp", VDict [(KStr "type", VStr "light"); (KStr "on", VBool true)])]
               [(KStr "type", VStr "light"); (KStr "on", VBool true)]).
Defined.

(** X26. Calling [set_object] twice with the same arguments is the same as
    calling it once. *)
Theorem set_object_twice (self : ZOCP) (cap : dict) (oname : key) (type : pyval) :
  capability self = VDict cap ->
  objects_ready cap oname = true ->
  (set_object oname type ;; set_object oname type) self = set_object oname type self.
Proof.
  intros Hcap Hready.
  destruct (capability_after_set_object_spec cap oname type)
    as (objs' & scope & Hafter & Hentry & Htype & Hobjs & Hscope & _).
  assert (Hlook : dict_lookup (KStr "objects") (capability_after_set_object cap oname type)
                  = Some (VDict objs')).
  { rewrite Hafter. apply dict_lookup_store_eq. }
  assert (Hfix : capability_after_set_object
                   (capability_after_set_object cap oname type) oname type
                 = capability_after_set_object cap oname type).
  { unfold capability_after_set_object at 1. rewrite Hlook.
    destruct objs' as [|o objs']; [done |]. rewrite Hentry.
    destruct scope as [|a scope]; [done |].
    rewrite (dict_store_same (KStr "type") type (a :: scope)) by done.
    rewrite (dict_store_same oname _ (o :: objs')) by done.
    by apply dict_store_same. }
  pose proof (set_object_runs self cap oname type Hcap Hready) as Hrun1.
  match type of Hrun1 with _ = (_, ?s, _) => set (s1 := s) in * end.
  assert (Hrun2 := set_object_runs s1 (capability_after_set_object cap oname type)
                     oname type eq_refl
                     (objects_ready_entry _ _ _ _ Hlook Hentry)).
  unfold bind. rewrite Hrun1, Hrun2. subst s1.
  cbn [peers name _running]. by rewrite Hfix.
Qed.

Lemma set_object_twice_witness :
  (set_object (KStr "lamp") (VStr "light") ;; set_object (KStr "lamp") (VStr "light")) node_A
  = set_object (KStr "lamp") (VStr "light") node_A.
Proof. by eapply set_object_twice. Defined.

(** X27. [set_object(name)] followed by [register_int(attr, ...)] puts the
    attribute inside the object: it is found under [objects/name/attr], and
    the object keeps its [type]. *)
Theorem set_object_then_register
    (self : ZOCP) (cap : dict) (oname : key) (type : pyval)
    (aname : key) (value access min max step : pyval) :
  capability self = VDict cap ->
  objects_ready cap oname = true ->
  exists self' out node,
    (set_object oname type ;; register_int aname value access min max step) self
    = (Ret tt, self', out) /\
    dict_get (capability self') [KStr "objects"; oname; aname] = Ret (VDict node) /\
    dict_lookup (KStr "value") node = Some value /\
    (aname <> KStr "type" ->
     dict_get (capability self') [KStr "objects"; oname; KStr "type"] = Ret type).
Proof.
  intros Hcap Hready.
  destruct (capability_after_set_object_spec cap oname type)
    as (objs' & scope & Hafter & Hentry & Htype & _).
  pose proof (set_object_runs self cap oname type Hcap Hready) as Hrun1.
  match type of Hrun1 with _ = (_, ?s, _) => set (s1 := s) in * end.
  assert (Hscope : cur_obj_item s1 [] = Ret (VDict scope)).
  { subst s1. unfold cur_obj_item. cbn [capability _cur_obj _cur_obj_detached app].
    rewrite Hafter.
    cbn [dict_get py_getitem]. rewrite dict_lookup_store_eq.
    cbn [dict_get py_getitem]. by rewrite Hentry. }
  destruct (register_bounded_runs "int" aname value access min max step s1 scope Hscope)
    as (self' & Hrun2 & Hget & Hsame).
  destruct (attribute_node_fields "int" value access min max step) as (Hv & _).
  exists self'. do 2 eexists. split.
  { unfold register_int. eapply bind_yields; [exact Hrun1 | exact Hrun2]. }
  apply (same_node_item _ _ _ _ Hsame) in Hget.
  subst s1. cbn [_cur_obj _cur_obj_detached app] in Hget. destruct Hget as [_ Hget].
  change [KStr "objects"; oname; aname] with ([KStr "objects"; oname] ++ [aname])%list.
  change [KStr "objects"; oname; KStr "type"]
    with ([KStr "objects"; oname] ++ [KStr "type"])%list.
  rewrite !dict_get_app, Hget. cbn [dict_get py_getitem].
  rewrite dict_lookup_store_eq. split; [done |]. split; [done |].
  intros Hne. rewrite dict_lookup_store_ne by congruence. by rewrite Htype.
Qed.

Lemma set_object_then_register_witness :
  exists self' out node,
    (set_object (KStr "lamp") (VStr "light") ;;
     register_int (KStr "level") (VInt 3) (VStr "rw") VNone (VInt 10) VNone) node_A
    = (Ret tt, self', out) /\
    dict_get (capability self') [KStr "objects"; KStr "lamp"; KStr "level"]
    = Ret (VDict node) /\
    dict_lookup (KStr "value") node = Some (VInt 3) /\
    (KStr "level" <> KStr "type" ->
     dict_get (capability self') [KStr "objects"; KStr "lamp"; KStr "type"]
     = Ret (VStr "light")).
Proof. by eapply set_object_then_register. Defined.

(** ** Node metadata *)

Lemma set_node_attr_runs (key notified : string) (value : pyval) (self : ZOCP) (cap : dict) :
  capability self = VDict cap ->
  exists self',
    set_node_attr key notified value self
    = (Ret tt, self', modified_effects self' (VDict [(KStr notified, value)]) None) /\
    capability self' = VDict (dict_store (KStr key) value cap) /\
    same_scope self self' /\
    peers self' = peers self.
Proof.
  intros Hcap. unfold set_node_attr.
  destruct (let_go_spec
              (fun p => match p with k :: _ => key_eqb k (KStr key) | [] => false end) self)
    as (s0 & Hgo & Hp & Hn & Hc & Hcur & Hkeys & Hrun).
  exists (with_capability s0 (VDict (dict_store (KStr key) value cap))).
  split; [|by repeat split].
  unfold bind at 1. cbn [gets]. rewrite Hcap. cbn [py_setitem lift].
  unfold bind at 1. cbn [ret]. unfold bind at 1. rewrite Hgo. unfold bind at 1.
  cbn [set_capability_attr modify].
  fold (with_capability s0 (VDict (dict_store (KStr key) value cap))).
  by rewrite on_modified_runs.
Qed.

(** X28. [get_node_name] returns what [set_node_name] stored, whatever
    argument it is given; the [name] attribute that the constructor read
    from the capability is not updated. *)
Theorem set_node_name_then_get (self : ZOCP) (value arg : pyval) :
  is_dict (capability self) = true ->
  exists self' out,
    (set_node_name value ;; get_node_name arg) self = (Ret value, self', out) /\
    name self' = name self.
Proof.
  intros Hcap. destruct (capability self) as [| | | | | |cap] eqn:Hc; try done.
  destruct (set_node_attr_runs "_name" "_name" value self cap Hc)
    as (s1 & Hrun & Hcap1 & (_ & _ & _ & Hname) & _).
  exists s1. eexists. split; [|done].
  unfold set_node_name.
  eapply (bind_yields _ _ _ _ _ _ _ _ _ Hrun).
  unfold get_node_name, capability_get, bind, gets. cbn [fst snd]. rewrite Hcap1.
  by rewrite dict_lookup_store_eq.
Qed.

Lemma set_node_name_then_get_witness :
  exists self' out,
    (set_node_name (VStr "ZOCP-Test") ;; get_node_name VNone) node_A
    = (Ret (VStr "ZOCP-Test"), self', out) /\
    name self' = name node_A.
Proof. by apply set_node_name_then_get. Defined.

(** X29. [set_node_name], [set_node_location], [set_node_orientation],
    [set_node_scale] and [set_node_matrix] store the value under their
    reserved key at the top of the capability tree, leave every other entry,
    the scope and the peers alone, and notify as [_on_modified] does;
    [set_node_scale] stores under ['_scale'] and reports ['scale']. *)
Theorem set_node_attributes (self : ZOCP) (cap : dict) (value : pyval) :
  capability self = VDict cap ->
  Forall (fun '(setter, key, notified) =>
            exists self',
              setter value self
              = (Ret tt, self', modified_effects self' (VDict [(KStr notified, value)]) None) /\
              dict_get (capability self') [KStr key] = Ret value /\
              (forall j q, j <> KStr key ->
                 dict_get (capability self') (j :: q) = dict_get (capability self) (j :: q)) /\
              same_scope self self' /\
              peers self' = peers self)
    [(set_node_name, "_name", "_name");
     (set_node_location, "_location", "_location");
     (set_node_orientation, "_orientation", "_orientation");
     (set_node_scale, "_scale", "scale");
     (set_node_matrix, "_matrix", "_matrix")].
Proof.
  intros Hcap.
  assert (H : forall key notified,
             exists self',
               set_node_attr key notified value self
               = (Ret tt, self', modified_effects self' (VDict [(KStr notified, value)]) None) /\
               dict_get (capability self') [KStr key] = Ret value /\
               (forall j q, j <> KStr key ->
                  dict_get (capability self') (j :: q) = dict_get (capability self) (j :: q)) /\
               same_scope self self' /\
               peers self' = peers self).
  { intros key notified.
    destruct (set_node_attr_runs key notified value self cap Hcap)
      as (self' & Hrun & Hcap' & Hscope & Hpeers).
    exists self'. split; [done |].
    rewrite Hcap', Hcap. cbn [dict_get py_getitem].
    rewrite dict_lookup_store_eq. split; [done |]. split; [|by split].
    intros j q Hj. by rewrite dict_lookup_store_ne. }
  repeat constructor; apply H.
Qed.

Lemma set_node_attributes_witness :
  Forall (fun '(setter, key, notified) =>
            exists self',
              setter (VList [VInt 1; VInt 2; VInt 3]) node_A
              = (Ret tt, self',
                 modified_effects self'
                   (VDict [(KStr notified, VList [VInt 1; VInt 2; VInt 3])]) None) /\
              dict_get (capability self') [KStr key] = Ret (VList [VInt 1; VInt 2; VInt 3]) /\
              (forall j q, j <> KStr key ->
                 dict_get (capability self') (j :: q) = dict_get (capability node_A) (j :: q)) /\
              same_scope node_A self' /\
              peers self' = peers node_A)
    [(set_node_name, "_name", "_name");
     (set_node_location, "_location", "_location");
     (set_node_orientation, "_orientation", "_orientation");
     (set_node_scale, "_scale", "scale");
     (set_node_matrix, "_matrix", "_matrix")].
Proof. by eapply set_node_attributes. Defined.

(** ** [dict_get_keys] *)

Lemma string_length_append (s t : string) :
  String.length (s ++ t) = (String.length s + String.length t)%nat.
Proof. induction s as [|c s IH]; simpl; [done | by rewrite IH]. Qed.

(** X30. [dict_get_keys] on a dict none of whose values is a dict returns,
    and the key list more than doubles with every entry: with [n] entries its
    length plus two is at least [2 ^ n] times that of the key list it was
    given plus two. *)
Theorem dict_get_keys_doubles (str_of_key : key -> string) (items : dict) (keylist : string) :
  forallb (fun kv => negb (is_dict kv.2)) items = true ->
  exists result,
    dict_get_keys str_of_key (VDict items) keylist = Ret result /\
    (2 ^ length items * (String.length keylist + 2)
     <= String.length result + 2)%nat.
Proof.
  revert keylist. induction items as [|[k v] items IH]; intros keylist Hflat.
  - exists keylist. split; [done |]. simpl. lia.
  - simpl in Hflat. apply andb_prop in Hflat as [Hv Hflat].
    destruct (IH (keylist ++ "." ++ str_of_key k ++ newline ++ keylist) Hflat)
      as (result & Hrun & Hlen).
    exists result. split.
    + cbn [dict_get_keys] in *. by destruct v.
    + rewrite !string_length_append in Hlen. cbn [length]. rewrite Nat.pow_succ_r'.
      cbn [String.length newline] in Hlen. nia.
Qed.

Lemma dict_get_keys_doubles_witness :
  exists result,
    dict_get_keys (fun k => match k with KStr s => s | _ => "" end)
      (VDict [(KStr "a", VInt 1); (KStr "b", VInt 2)]) "" = Ret result /\
    (2 ^ length [(KStr "a", VInt 1); (KStr "b", VInt 2)] * (String.length "" + 2)
     <= String.length result + 2)%nat.
Proof. by apply dict_get_keys_doubles. Defined.
